(** * Reliability assessment engine: a shallow embedding and its properties

    Two programs of the repository are embedded here.

    - [Engine]: the assessment engine Lambda (Python: [lambda_handler],
      [load_challenge_config], [load_check_functions_from_s3],
      [identify_team_account], [assume_assessment_role], [run_assessment],
      [execute_check_function], [calculate_score], [calculate_max_score],
      [generate_feedback], [store_assessment_results],
      [record_assessment_metrics]).
    - [Trigger]: the assessment trigger Lambda (JavaScript: [handler],
      [identifyEventSource], [extractParticipantIds],
      [getActiveParticipants], [getParticipantsFromStacks],
      [triggerAssessment]).

    External services (DynamoDB, S3, STS, CloudWatch, Lambda invoke) are
    oracles gathered in an environment record; what the code changes (the
    results table, [sys.modules], the sequence of service calls, the
    variables of the loaded module, the process's alarm) is threaded
    through an explicit state. *)

From Stdlib Require Import ZArith Lia Ascii String.
From stdpp Require Import base tactics option list gmap strings pretty.

Open Scope string_scope.
Open Scope Z_scope.
Open Scope list_scope.

(** ** Strings *)

Module Text.

(** [s.replace(pat, "")]: every non-overlapping occurrence of [pat],
    scanning from the left, is dropped.  [skip] counts the characters of a
    matched occurrence still to be dropped. *)
Fixpoint remove_all_from (pat : string) (skip : nat) (s : string) : string :=
  match s with
  | EmptyString => EmptyString
  | String c s' =>
      match skip with
      | S k => remove_all_from pat k s'
      | O =>
          if String.prefix pat s
          then remove_all_from pat (Nat.pred (String.length pat)) s'
          else String c (remove_all_from pat O s')
      end
  end.

Definition remove_all (pat s : string) : string :=
  match pat with
  | EmptyString => s
  | _ => remove_all_from pat O s
  end.

(** [s.split(sep, 1)] for a one-character separator: the text before the
    first [sep], and the text after it when there is one. *)
Fixpoint split_once (sep : ascii) (s : string) : string * option string :=
  match s with
  | EmptyString => (EmptyString, None)
  | String c s' =>
      if Ascii.eqb c sep then (EmptyString, Some s')
      else let '(hd, tl) := split_once sep s' in (String c hd, tl)
  end.

(** [s.slice(n)]: [s] without its first [n] characters. *)
Fixpoint drop_chars (n : nat) (s : string) : string :=
  match n, s with
  | O, _ => s
  | S _, EmptyString => EmptyString
  | S k, String _ s' => drop_chars k s'
  end.

(** JavaScript's [s.replace(pat, '')] with a string pattern: the first
    occurrence of [pat] only is dropped. *)
Fixpoint remove_first (pat s : string) : string :=
  if String.prefix pat s then drop_chars (String.length pat) s
  else
    match s with
    | EmptyString => EmptyString
    | String c s' => String c (remove_first pat s')
    end.

End Text.

Export Text.

(** ** Python values and exceptions *)

Module Py.

(** The values a check function can hand back, and the attribute values a
    DynamoDB item can hold. *)
#[warnings="-register-all"]
Inductive pyval :=
| PNone
| PBool (b : bool)
| PInt (z : Z)
| PStr (s : string)
| PList (l : list pyval)
| PDict (d : list (string * pyval)).

(** [bool(v)]: Python's truth value testing. *)
Definition truthy (v : pyval) : bool :=
  match v with
  | PNone => false
  | PBool b => b
  | PInt z => negb (Z.eqb z 0)
  | PStr s => negb (String.eqb s "")
  | PList l => match l with [] => false | _ => true end
  | PDict d => match d with [] => false | _ => true end
  end.

(** [v == s] for a string literal [s]: only a [str] compares equal to it. *)
Definition eq_str (v : pyval) (s : string) : bool :=
  match v with
  | PStr t => String.eqb t s
  | _ => false
  end.

(** [isinstance(v, bool)]. *)
Definition is_bool (v : pyval) : bool :=
  match v with PBool _ => true | _ => false end.

(** [d.get(k)] on the items of a dict, as [Some v] or [None] for a
    missing key. *)
Fixpoint dict_get (k : string) (d : list (string * pyval)) : option pyval :=
  match d with
  | [] => None
  | (k', v) :: d' => if String.eqb k' k then Some v else dict_get k d'
  end.

(** The exception classes the engine raises or receives.  All of them
    derive from [Exception]; [ClientError] is botocore's, [OtherError]
    stands for every other class under [Exception]. *)
Inductive exn_class :=
| Exception | ValueError | TypeError | KeyError | TimeoutError
| ClientError | OtherError.

Record exn := Exn { cls : exn_class; msg : string }.

(** [str(e)]. *)
Definition str (e : exn) : string := msg e.

Definition is_client_error (e : exn) : bool :=
  match cls e with ClientError => true | _ => false end.

(** What a [raise] throws: an exception that derives from [Exception], or
    one that derives from [BaseException] only ([SystemExit] from
    [sys.exit()], [KeyboardInterrupt]), named by its class.  An
    [except Exception] clause catches the first kind and lets the second
    pass. *)
Inductive thrown :=
| Exc (e : exn)
| Exit (class_name : string).

(** [o.get(k, dflt)] for a field that may be absent. *)
Definition get_or {A} (o : option A) (dflt : A) : A :=
  match o with Some a => a | None => dflt end.

(** A Python string used as a condition: [None] and [""] are false. *)
Definition str_truthy (o : option string) : bool :=
  match o with
  | Some s => negb (String.eqb s "")
  | None => false
  end.

End Py.

Export Py.

(** ** The assessment engine (Python Lambda) *)

Module Engine.

(** *** Data *)

(** One entry of a definition's [assessmentCriteria].  Every field is read
    with [criterion.get], so each may be absent. *)
Record criterion := Criterion {
  crit_id : option string;
  crit_name : option string;
  crit_checkFunction : option string;
  crit_points : option Z;
}.

(** An item of the challenge registry table, by the attributes the engine
    reads; [other] holds every attribute it never looks at. *)
Record challenge_config := ChallengeConfig {
  active : option pyval;
  s3Location : option string;
  checkFunctionsFile : option string;
  stackNamePrefix : option string;
  assessmentCriteria : option (list criterion);
  passingScore : option Z;
  other : list (string * pyval);
}.

(** The dict returned by [assume_assessment_role]. *)
Record credentials := Credentials {
  aws_access_key_id : string;
  aws_secret_access_key : string;
  aws_session_token : string;
}.

(** The variables of the loaded module that its check functions assign.
    The functions of one module share them: what one call leaves, the next
    call finds.  Empty when the module has just been executed. *)
Abbreviation globals := (gmap string pyval).

(** How a call [check_function(participant_id, stack_name, credentials)]
    ends: it returns a value, or it raises. *)
Inductive completion :=
| Returns (v : pyval)
| Raises (t : thrown).

(** The end of a call, and the module's variables as the call leaves
    them. *)
Record ending := Ending {
  completes : completion;
  leaves : globals;
}.

(** What a call does: how long it runs and how it ends when nothing
    disturbs it, and how it ends when the alarm handler raises
    [TimeoutError] inside it, [alarm_seconds] after its start.  A function
    that does not catch that error ends in [Raises] of it; a function with
    an [except Exception] clause around the place the error lands goes on,
    and ends as its code then has it.  (Calls are taken to end.) *)
Record behaviour := Behaviour {
  elapsed_ms : Z;
  undisturbed : ending;
  interrupted : ending;
}.

(** An attribute of the loaded module, by what calling it does with the
    module's variables as they are (calling an attribute that is not
    callable raises [TypeError]).  The dict of credentials it is handed is
    taken to be left as it is. *)
Definition routine : Type :=
  string -> string -> credentials -> globals -> behaviour.

(** The loaded module: [hasattr]/[getattr] by name. *)
Abbreviation pymodule := (gmap string routine).

(** An element of the list [run_assessment] returns.  The keys [details]
    and [error] are each present on some paths only. *)
Record result_entry := ResultEntry {
  criterionId : option string;
  name : option string;
  points : Z;
  maxPoints : Z;
  implemented : pyval;
  details : option pyval;
  error : option string;
}.

Record feedback_implemented := FeedbackImplemented {
  fi_name : option string;
  fi_details : pyval;
}.

Record feedback_suggestion := FeedbackSuggestion {
  fs_name : option string;
  fs_points : Z;
}.

Record feedback := Feedback {
  summary : string;
  fb_implemented : list feedback_implemented;
  suggestions : list feedback_suggestion;
}.

(** The item [store_assessment_results] writes ([assessedAt], the same
    instant as an ISO string, is not represented). *)
Record stored_item := StoredItem {
  item_participantId : string;
  item_challengeId : string;
  item_teamId : string;
  item_timestamp : Z;
  item_score : Z;
  item_details : list result_entry;
  item_passed : bool;
}.

(** The dict [lambda_handler] returns (without its [timestamp] string). *)
Record response := Response {
  resp_participantId : string;
  resp_challengeId : string;
  resp_teamId : string;
  score : Z;
  maxScore : Z;
  passed : bool;
  results : list result_entry;
  resp_feedback : feedback;
}.

(** The invocation event, by the keys the handler reads. *)
Record event := Event {
  participantId : option string;
  challengeId : option string;
  teamId : option string;
}.

(** *** The outside world *)

Inductive get_item_response :=
| GetItemRaises (e : exn)
| GetItemResponse (Item : option challenge_config).

(** The object body: bytes that do not decode, or source code, given by the
    module namespace its execution builds and what that execution throws,
    if anything. *)
Inductive s3_body :=
| BodyUndecodable (e : exn)
| BodySource (namespace : pymodule) (exec_error : option thrown).

Inductive get_object_response :=
| GetObjectRaises (e : exn)
| GetObjectResponse (Body : s3_body).

Inductive assume_role_response :=
| AssumeRoleRaises (e : exn)
| AssumeRoleResponse (AccessKeyId SecretAccessKey SessionToken : string).

Inductive put_response :=
| PutRaises (e : exn)
| PutOk.

(** The two [put_metric_data] payloads (the duration metric, a wall-clock
    difference, is left out of the first). *)
Inductive metric_data :=
| AssessmentMetrics (challenge_id : string) (score : Z) (passed : bool)
| AssessmentErrors (challenge_id : string).

(** [os.environ], by the variables the engine reads;
    [TEAM_ACCOUNT_MAPPING] is given already parsed. *)
Record environ := Environ {
  CHALLENGE_REGISTRY_TABLE : option string;
  ASSESSMENT_RESULTS_TABLE : option string;
  TEAM_ACCOUNT_MAPPING : option (gmap string string);
  DEFAULT_TEAM_ACCOUNT_ID : option string;
  ASSESSMENT_ENGINE_EXTERNAL_ID : option string;
}.

(** What the services answer during one invocation, and what the clock
    reads (milliseconds since the epoch) where the engine looks at it.  An
    answer is how the call ends for the engine, whatever made it end so.
    CloudWatch has no entry: the engine drops whatever [put_metric_data]
    answers or raises. *)
Record env := Env {
  os_environ : environ;
  get_item : string -> string -> get_item_response;
  get_object : string -> string -> get_object_response;
  assume_role : string -> string -> assume_role_response;
  put_item : string -> stored_item -> put_response;
  time_at_load : Z;
  time_at_store : Z;
}.

(** A service call the engine made. *)
Inductive call :=
| CallGetItem (table key : string)
| CallGetObject (bucket key : string)
| CallAssumeRole (role_arn external_id : string)
| CallPutItem (table : string) (item : stored_item)
| CallPutMetricData (m : metric_data).

(** What an invocation can change: the interpreter's [sys.modules] (it
    outlives the invocation in a warm container), the results table (keyed
    by participant and challenge), the calls made so far, oldest first, the
    variables of the module loaded last, and the process's alarm clock:
    [None] when no [SIGALRM] is pending, [Some ms] when one is, [ms]
    milliseconds ahead.  The engine arms the alarm before it calls a check
    function; when an alarm left pending goes off later depends on how long
    the rest takes, which is not part of this model: the state keeps the
    pending alarm, and the service calls that follow end as their oracles
    say. *)
Record state := State {
  sys_modules : gmap string pymodule;
  results_table : gmap (string * string) stored_item;
  calls : list call;
  module_vars : globals;
  alarm : option Z;
}.

Definition log_call (c : call) (st : state) : state :=
  {| sys_modules := sys_modules st;
     results_table := results_table st;
     calls := calls st ++ [c];
     module_vars := module_vars st;
     alarm := alarm st |}.

(** *** A state and exception monad *)

Definition M (A : Type) : Type := state -> (thrown + A) * state.

Definition ret {A} (a : A) : M A := fun st => (inr a, st).

(** [raise e] for an exception built by the engine. *)
Definition raise {A} (e : exn) : M A := fun st => (inl (Exc e), st).

(** Whatever was thrown goes on. *)
Definition throw {A} (t : thrown) : M A := fun st => (inl t, st).

Definition bind {A B} (m : M A) (k : A -> M B) : M B :=
  fun st =>
    match m st with
    | (inl t, st') => (inl t, st')
    | (inr a, st') => k a st'
    end.

Definition do_call (c : call) : M unit := fun st => (inr tt, log_call c st).

(** [d[key]] on a field that may be absent: [KeyError(key)]. *)
Definition subscript {A} (key : string) (o : option A) : M A :=
  match o with
  | Some a => ret a
  | None => raise (Exn KeyError ("'" +:+ key +:+ "'"))
  end.

Declare Scope engine_scope.
Delimit Scope engine_scope with engine.
Notation "x <- m ;; k" := (bind m (fun x => k))
  (at level 100, m at next level, right associativity) : engine_scope.
Notation "m ;;; k" := (bind m (fun _ => k))
  (at level 100, right associativity) : engine_scope.
Open Scope engine_scope.

(** *** Resolving the definition *)

Definition load_challenge_config (w : env) (challenge_id : string)
  : M challenge_config :=
  let table :=
    get_or (CHALLENGE_REGISTRY_TABLE (os_environ w)) "ctf-challenge-registry" in
  do_call (CallGetItem table challenge_id) ;;;
  match get_item w table challenge_id with
  | GetItemRaises e =>
      if is_client_error e
      then raise (Exn Exception
                    ("Failed to load challenge configuration: " +:+ str e))
      else raise e
  | GetItemResponse None =>
      raise (Exn Exception ("Challenge not found: " +:+ challenge_id))
  | GetItemResponse (Some challenge) =>
      if negb (eq_str (get_or (active challenge) (PStr "true")) "true")
      then raise (Exn Exception ("Challenge is not active: " +:+ challenge_id))
      else ret challenge
  end.

(** *** Loading the bundle *)

(** [f"check_functions_{int(time.time())}"], from the clock reading in
    milliseconds; [int] truncates towards zero. *)
Definition module_name (now_ms : Z) : string :=
  "check_functions_" +:+ pretty (Z.quot now_ms 1000).

(** [module = module_from_spec(spec)] and
    [sys.modules[module_name] = module]: a new module, none of its
    variables assigned yet by a check function. *)
Definition register_module (module_name : string) (module : pymodule)
  : M unit :=
  fun st =>
    (inr tt,
     {| sys_modules := <[module_name := module]> (sys_modules st);
        results_table := results_table st;
        calls := calls st;
        module_vars := ∅;
        alarm := alarm st |}).

(** The two [except] clauses around the whole body of
    [load_check_functions_from_s3]: a [ClientError] is caught by the first,
    any other [Exception] by the second, wherever in the body it was
    thrown; what does not derive from [Exception] passes both. *)
Definition load_failure {A} (t : thrown) : M A :=
  match t with
  | Exc e =>
      if is_client_error e
      then raise (Exn Exception
                    ("Failed to load check functions from S3: " +:+ str e))
      else raise (Exn Exception ("Failed to load check functions: " +:+ str e))
  | Exit class_name => throw (Exit class_name)
  end.

Definition load_check_functions_from_s3
    (w : env) (s3_location check_functions_file : string) : M pymodule :=
  let s3_path := remove_all "s3://" s3_location in
  let parts := split_once "/" s3_path in
  let bucket_name := fst parts in
  let key_prefix := get_or (snd parts) "" in
  let key := key_prefix +:+ check_functions_file in
  do_call (CallGetObject bucket_name key) ;;;
  match get_object w bucket_name key with
  | GetObjectRaises e => load_failure (Exc e)
  | GetObjectResponse (BodyUndecodable e) => load_failure (Exc e)
  | GetObjectResponse (BodySource namespace exec_error) =>
      register_module (module_name (time_at_load w)) namespace ;;;
      match exec_error with
      | Some t => load_failure t
      | None => ret namespace
      end
  end.

(** *** Acquiring credentials *)

Definition identify_team_account (w : env) (team_id : string) : string :=
  let team_account_mapping :=
    get_or (TEAM_ACCOUNT_MAPPING (os_environ w)) (∅ : gmap string string) in
  match team_account_mapping !! team_id with
  | Some account => account
  | None => get_or (DEFAULT_TEAM_ACCOUNT_ID (os_environ w)) "123456789012"
  end.

Definition assume_assessment_role (w : env) (account_id : string)
  : M credentials :=
  let role_arn :=
    "arn:aws:iam::" +:+ account_id +:+ ":role/AssessmentEngineAccessRole" in
  let external_id :=
    get_or (ASSESSMENT_ENGINE_EXTERNAL_ID (os_environ w))
           "ctf-assessment-engine" in
  do_call (CallAssumeRole role_arn external_id) ;;;
  match assume_role w role_arn external_id with
  | AssumeRoleRaises e =>
      if is_client_error e
      then raise (Exn Exception
                    ("Failed to assume role in participant account: " +:+ str e))
      else raise e
  | AssumeRoleResponse key secret token =>
      ret {| aws_access_key_id := key;
             aws_secret_access_key := secret;
             aws_session_token := token |}
  end.

(** *** Evaluating the criteria *)

(** The argument of [signal.alarm]. *)
Definition alarm_seconds : Z := 30.

(** What the alarm handler raises. *)
Definition timed_out : exn :=
  Exn TimeoutError "Check function execution timed out".

(** The state a call leaves: the module's variables as the call left them,
    and the alarm. *)
Definition after_call (vars : globals) (pending : option Z) (st : state)
  : state :=
  {| sys_modules := sys_modules st;
     results_table := results_table st;
     calls := calls st;
     module_vars := vars;
     alarm := pending |}.

(** [signal.alarm(30)] arms the alarm (replacing one that is pending) and
    the check function is called.  A call still running [alarm_seconds]
    later gets [TimeoutError] raised inside it and ends as it does then
    ([interrupted]); a shorter call ends undisturbed.  When the call
    returns, [signal.alarm(0)] disarms the alarm, and the value returned
    must be a dict holding the key ['implemented']; the dict comes back as
    it is.  When the call raises, nothing disarms the alarm: if it has not
    gone off yet, it stays pending for the time it has left.  Whatever is
    raised is logged and raised again. *)
Definition execute_check_function
    (check_function : routine) (participant_id stack_name : string)
    (credentials : credentials) : M (list (string * pyval)) :=
  fun st =>
    let run :=
      check_function participant_id stack_name credentials (module_vars st) in
    let cut := alarm_seconds * 1000 <=? elapsed_ms run in
    let ending := if cut then interrupted run else undisturbed run in
    match completes ending with
    | Raises t =>
        (inl t,
         after_call (leaves ending)
           (if cut then None
            else Some (alarm_seconds * 1000 - elapsed_ms run))
           st)
    | Returns result =>
        let st' := after_call (leaves ending) None st in
        match result with
        | PDict d =>
            match dict_get "implemented" d with
            | Some _ => (inr d, st')
            | None =>
                (inl (Exc (Exn ValueError
                             "Check function result must include 'implemented' key")),
                 st')
            end
        | _ =>
            (inl (Exc (Exn ValueError
                         "Check function must return a dictionary")),
             st')
        end
    end.

(** The body of the loop of [run_assessment] for one criterion: the entry
    appended to [results], or what leaves the loop.  The [hasattr] test is
    outside the [try] block, and [hasattr] raises [TypeError] for an
    attribute name that is not a string; the [except Exception] clause of
    the [try] block lets pass what does not derive from [Exception]. *)
Definition check_criterion
    (participant_id stack_name : string) (check_functions : pymodule)
    (assumed_credentials : credentials) (criterion : criterion)
  : M result_entry :=
  let criterion_id := crit_id criterion in
  let criterion_name := crit_name criterion in
  let points := get_or (crit_points criterion) 0 in
  match crit_checkFunction criterion with
  | None => raise (Exn TypeError "attribute name must be string, not 'NoneType'")
  | Some check_function_name =>
      match check_functions !! check_function_name with
      | None =>
          ret {| criterionId := criterion_id;
                 name := criterion_name;
                 points := 0;
                 maxPoints := points;
                 implemented := PBool false;
                 details := None;
                 error := Some ("Check function not found: "
                                +:+ check_function_name) |}
      | Some check_function =>
          fun st =>
            match execute_check_function check_function participant_id
                    stack_name assumed_credentials st with
            | (inr result, st') =>
                let result_implemented :=
                  get_or (dict_get "implemented" result) (PBool false) in
                (inr {| criterionId := criterion_id;
                        name := criterion_name;
                        points :=
                          if truthy result_implemented then points else 0;
                        maxPoints := points;
                        implemented := result_implemented;
                        details :=
                          Some (get_or (dict_get "details" result) (PDict []));
                        error := None |},
                 st')
            | (inl (Exc e), st') =>
                (inr {| criterionId := criterion_id;
                        name := criterion_name;
                        points := 0;
                        maxPoints := points;
                        implemented := PBool false;
                        details := None;
                        error := Some (str e) |},
                 st')
            | (inl (Exit class_name), st') => (inl (Exit class_name), st')
            end
      end
  end.

(** The loop itself, [results] being the list built so far. *)
Fixpoint run_criteria
    (participant_id stack_name : string) (check_functions : pymodule)
    (assumed_credentials : credentials) (criteria : list criterion)
    (results : list result_entry) : M (list result_entry) :=
  match criteria with
  | [] => ret results
  | criterion :: rest =>
      entry <- check_criterion participant_id stack_name check_functions
                 assumed_credentials criterion ;;
      run_criteria participant_id stack_name check_functions
        assumed_credentials rest (results ++ [entry])
  end.

Definition criteria_of (challenge_config : challenge_config) : list criterion :=
  get_or (assessmentCriteria challenge_config) [].

Definition stack_name_of
    (challenge_config : challenge_config) (participant_id : string) : string :=
  get_or (stackNamePrefix challenge_config) "reliability-challenge-"
  +:+ participant_id.

Definition run_assessment
    (participant_id : string) (challenge_config : challenge_config)
    (check_functions : pymodule) (assumed_credentials : credentials)
  : M (list result_entry) :=
  run_criteria participant_id (stack_name_of challenge_config participant_id)
    check_functions assumed_credentials (criteria_of challenge_config) [].

(** *** Scoring and feedback *)

(** Python's [sum]: a left fold from 0. *)
Definition sum (l : list Z) : Z := fold_left Z.add l 0.

Definition calculate_score (assessment_results : list result_entry) : Z :=
  sum (map points assessment_results).

Definition calculate_max_score (challenge_config : challenge_config) : Z :=
  sum (map (fun criterion => get_or (crit_points criterion) 0)
           (criteria_of challenge_config)).

Fixpoint feedback_lists (assessment_results : list result_entry)
    (implemented_acc : list feedback_implemented)
    (suggestions_acc : list feedback_suggestion)
  : list feedback_implemented * list feedback_suggestion :=
  match assessment_results with
  | [] => (implemented_acc, suggestions_acc)
  | result :: rest =>
      if truthy (implemented result)
      then feedback_lists rest
             (implemented_acc
              ++ [{| fi_name := name result;
                     fi_details := get_or (details result) (PDict []) |}])
             suggestions_acc
      else feedback_lists rest implemented_acc
             (suggestions_acc
              ++ [{| fs_name := name result; fs_points := maxPoints result |}])
  end.

Definition generate_feedback (assessment_results : list result_entry)
    (score : Z) (passed : bool) : feedback :=
  let lists := feedback_lists assessment_results [] [] in
  {| summary :=
       if passed
       then "Congratulations! You've successfully passed the challenge with a score of "
            +:+ pretty score +:+ "."
       else "You've scored " +:+ pretty score
            +:+ " points, but need more improvements to pass the challenge.";
     fb_implemented := fst lists;
     suggestions := snd lists |}.

(** *** Persisting and metrics *)

Definition write_item (item : stored_item) : M unit :=
  fun st =>
    (inr tt,
     {| sys_modules := sys_modules st;
        results_table :=
          <[(item_participantId item, item_challengeId item) := item]>
            (results_table st);
        calls := calls st;
        module_vars := module_vars st;
        alarm := alarm st |}).

Definition store_assessment_results (w : env)
    (participant_id challenge_id team_id : string)
    (assessment_results : list result_entry) (score : Z) (passed : bool)
  : M unit :=
  let table :=
    get_or (ASSESSMENT_RESULTS_TABLE (os_environ w)) "ctf-assessment-results" in
  let item :=
    {| item_participantId := participant_id;
       item_challengeId := challenge_id;
       item_teamId := team_id;
       item_timestamp := time_at_store w;
       item_score := score;
       item_details := assessment_results;
       item_passed := passed |} in
  do_call (CallPutItem table item) ;;;
  match put_item w table item with
  | PutRaises e =>
      if is_client_error e
      then raise (Exn Exception
                    ("Failed to store assessment results: " +:+ str e))
      else raise e
  | PutOk => write_item item
  end.

(** Whatever [put_metric_data] raises is logged and dropped. *)
Definition record_assessment_metrics (w : env)
    (challenge_id : string) (score : Z) (passed : bool) : M unit :=
  do_call (CallPutMetricData (AssessmentMetrics challenge_id score passed)).

(** *** The handler *)

(** The [try] block of [lambda_handler]. *)
Definition lambda_handler_try (w : env) (event : event) : M response :=
  let team_id := get_or (teamId event) "default-team" in
  if negb (str_truthy (participantId event))
     || negb (str_truthy (challengeId event))
  then raise (Exn ValueError
                "Missing required parameters: participantId and challengeId")
  else
    let participant_id := get_or (participantId event) "" in
    let challenge_id := get_or (challengeId event) "" in
    challenge_config <- load_challenge_config w challenge_id ;;
    s3_location <- subscript "s3Location" (s3Location challenge_config) ;;
    check_functions_file <-
      subscript "checkFunctionsFile" (checkFunctionsFile challenge_config) ;;
    check_functions <-
      load_check_functions_from_s3 w s3_location check_functions_file ;;
    let team_account_id := identify_team_account w team_id in
    assumed_credentials <- assume_assessment_role w team_account_id ;;
    assessment_results <-
      run_assessment participant_id challenge_config check_functions
        assumed_credentials ;;
    let score := calculate_score assessment_results in
    let passed := get_or (passingScore challenge_config) 80 <=? score in
    let feedback := generate_feedback assessment_results score passed in
    store_assessment_results w participant_id challenge_id team_id
      assessment_results score passed ;;;
    record_assessment_metrics w challenge_id score passed ;;;
    ret {| resp_participantId := participant_id;
           resp_challengeId := challenge_id;
           resp_teamId := team_id;
           score := score;
           maxScore := calculate_max_score challenge_config;
           passed := passed;
           results := assessment_results;
           resp_feedback := feedback |}.

(** [lambda_handler]: the [try] block, and the [except Exception] clause
    that puts the error metric (dropping what that raises) and raises the
    exception again; what does not derive from [Exception] leaves the
    handler as it is, with no metric. *)
Definition lambda_handler (w : env) (event : event) : M response :=
  fun st =>
    match lambda_handler_try w event st with
    | (inr result, st') => (inr result, st')
    | (inl (Exc e), st') =>
        (inl (Exc e),
         log_call
           (CallPutMetricData
              (AssessmentErrors (get_or (challengeId event) "unknown")))
           st')
    | (inl (Exit class_name), st') => (inl (Exit class_name), st')
    end.

(** *** Notions used in the statements *)

(** [criterion.get('points', 0)]. *)
Definition criterion_points (criterion : criterion) : Z :=
  get_or (crit_points criterion) 0.

(** The point values of the criteria whose outcome tests true on
    [implemented], summed, criteria and outcomes being paired in order. *)
Fixpoint implemented_points
    (criteria : list criterion) (outcomes : list result_entry) : Z :=
  match criteria, outcomes with
  | criterion :: criteria', outcome :: outcomes' =>
      (if truthy (implemented outcome) then criterion_points criterion else 0)
      + implemented_points criteria' outcomes'
  | _, _ => 0
  end.

(** The ways a criterion's routine can fail to give a verdict, the
    module's variables being [vars] when it is called: it is missing from
    the bundle; it raises an error that derives from [Exception] before the
    alarm goes off; or it is still running when the alarm goes off and ends
    in an error that derives from [Exception], the [TimeoutError] raised
    inside it when it does not catch that. *)
Inductive routine_failure
    (participant_id stack_name : string) (check_functions : pymodule)
    (assumed_credentials : credentials) (vars : globals)
    (criterion : criterion) : Prop :=
| routine_missing check_function_name :
    crit_checkFunction criterion = Some check_function_name ->
    check_functions !! check_function_name = None ->
    routine_failure participant_id stack_name check_functions
      assumed_credentials vars criterion
| routine_raises check_function_name (check_function : routine) e :
    crit_checkFunction criterion = Some check_function_name ->
    check_functions !! check_function_name = Some check_function ->
    elapsed_ms (check_function participant_id stack_name assumed_credentials
                  vars)
    < alarm_seconds * 1000 ->
    completes (undisturbed (check_function participant_id stack_name
                              assumed_credentials vars))
    = Raises (Exc e) ->
    routine_failure participant_id stack_name check_functions
      assumed_credentials vars criterion
| routine_times_out check_function_name (check_function : routine) e :
    crit_checkFunction criterion = Some check_function_name ->
    check_functions !! check_function_name = Some check_function ->
    alarm_seconds * 1000
    <= elapsed_ms (check_function participant_id stack_name
                     assumed_credentials vars) ->
    completes (interrupted (check_function participant_id stack_name
                              assumed_credentials vars))
    = Raises (Exc e) ->
    routine_failure participant_id stack_name check_functions
      assumed_credentials vars criterion.

(** The state in which the loop of [run_assessment] is after taking up
    [criteria] in turn, starting in [st]. *)
Fixpoint state_after
    (participant_id stack_name : string) (check_functions : pymodule)
    (assumed_credentials : credentials) (criteria : list criterion)
    (st : state) : state :=
  match criteria with
  | [] => st
  | criterion :: rest =>
      state_after participant_id stack_name check_functions
        assumed_credentials rest
        (snd (check_criterion participant_id stack_name check_functions
                assumed_credentials criterion st))
  end.

(** No check function of the module ends a call, cut off by the alarm or
    not, in an error outside [Exception]. *)
Definition raises_errors_only (check_functions : pymodule) : Prop :=
  forall check_function_name (check_function : routine)
         participant_id stack_name assumed_credentials vars class_name,
    check_functions !! check_function_name = Some check_function ->
    completes (undisturbed (check_function participant_id stack_name
                              assumed_credentials vars))
    <> Raises (Exit class_name)
    /\ completes (interrupted (check_function participant_id stack_name
                                 assumed_credentials vars))
       <> Raises (Exit class_name).

(** The event names a participant and a challenge (neither [None] nor
    empty), as the handler's first test demands. *)
Definition names (event : event) (participant_id challenge_id : string) : Prop :=
  participantId event = Some participant_id /\ participant_id <> ""
  /\ challengeId event = Some challenge_id /\ challenge_id <> "".

(** The account whose role the run assumes. *)
Definition team_account (w : env) (event : event) : string :=
  identify_team_account w (get_or (teamId event) "default-team").

(** What the run asks the services for: the bucket and key of the bundle,
    the role it assumes and the external id it gives. *)
Definition bundle_bucket (s3_location : string) : string :=
  fst (split_once "/" (remove_all "s3://" s3_location)).

Definition bundle_key (s3_location check_functions_file : string) : string :=
  get_or (snd (split_once "/" (remove_all "s3://" s3_location))) ""
  +:+ check_functions_file.

Definition role_arn (account_id : string) : string :=
  "arn:aws:iam::" +:+ account_id +:+ ":role/AssessmentEngineAccessRole".

Definition external_id (w : env) : string :=
  get_or (ASSESSMENT_ENGINE_EXTERNAL_ID (os_environ w)) "ctf-assessment-engine".

(** A run that gets through the three stages: what it evaluates with, and
    the state it starts evaluating in. *)
Inductive reaches_evaluation (w : env) (event : event) (st : state)
  : string -> string -> challenge_config -> pymodule -> credentials -> state
    -> Prop :=
| reaches participant_id challenge_id challenge_config st1
    s3_location check_functions_file check_functions st2
    assumed_credentials st3 :
    names event participant_id challenge_id ->
    load_challenge_config w challenge_id st = (inr challenge_config, st1) ->
    s3Location challenge_config = Some s3_location ->
    checkFunctionsFile challenge_config = Some check_functions_file ->
    load_check_functions_from_s3 w s3_location check_functions_file st1
    = (inr check_functions, st2) ->
    assume_assessment_role w (team_account w event) st2
    = (inr assumed_credentials, st3) ->
    reaches_evaluation w event st participant_id challenge_id
      challenge_config check_functions assumed_credentials st3.

(** From [st] to [st'] nothing changed but, possibly, the module's
    variables and the alarm. *)
Definition same_store (st st' : state) : Prop :=
  sys_modules st' = sys_modules st
  /\ results_table st' = results_table st
  /\ calls st' = calls st.

Definition is_put_item (c : call) : bool :=
  match c with CallPutItem _ _ => true | _ => false end.

(** From [st] to [st'] nothing was written to the results table, and no
    write was attempted. *)
Definition nothing_persisted (st st' : state) : Prop :=
  results_table st' = results_table st
  /\ exists made, calls st' = calls st ++ made
                  /\ Forall (fun c => is_put_item c = false) made.

(** The item a run stores, and the result it returns, from what it
    evaluated. *)
Definition item_of (w : env) (event : event)
    (participant_id challenge_id : string)
    (challenge_config : challenge_config)
    (assessment_results : list result_entry) : stored_item :=
  let score := calculate_score assessment_results in
  {| item_participantId := participant_id;
     item_challengeId := challenge_id;
     item_teamId := get_or (teamId event) "default-team";
     item_timestamp := time_at_store w;
     item_score := score;
     item_details := assessment_results;
     item_passed := get_or (passingScore challenge_config) 80 <=? score |}.

Definition result_of (event : event) (participant_id challenge_id : string)
    (challenge_config : challenge_config)
    (assessment_results : list result_entry) : response :=
  let score := calculate_score assessment_results in
  let passed := get_or (passingScore challenge_config) 80 <=? score in
  {| resp_participantId := participant_id;
     resp_challengeId := challenge_id;
     resp_teamId := get_or (teamId event) "default-team";
     score := score;
     maxScore := calculate_max_score challenge_config;
     passed := passed;
     results := assessment_results;
     resp_feedback := generate_feedback assessment_results score passed |}.

Definition results_table_name (w : env) : string :=
  get_or (ASSESSMENT_RESULTS_TABLE (os_environ w)) "ctf-assessment-results".

Definition registry_table_name (w : env) : string :=
  get_or (CHALLENGE_REGISTRY_TABLE (os_environ w)) "ctf-challenge-registry".

(** The registry holds, for [challenge_id], an active definition that says
    where its bundle is. *)
Definition resolves (w : env) (challenge_id : string)
    (challenge_config : challenge_config)
    (s3_location check_functions_file : string) : Prop :=
  get_item w (registry_table_name w) challenge_id
  = GetItemResponse (Some challenge_config)
  /\ (active challenge_config = None
      \/ active challenge_config = Some (PStr "true"))
  /\ s3Location challenge_config = Some s3_location
  /\ checkFunctionsFile challenge_config = Some check_functions_file.

(** What was thrown while the bundle was fetched, decoded and executed, if
    anything was. *)
Definition bundle_error (r : get_object_response) : option thrown :=
  match r with
  | GetObjectRaises e => Some (Exc e)
  | GetObjectResponse (BodyUndecodable e) => Some (Exc e)
  | GetObjectResponse (BodySource _ exec_error) => exec_error
  end.

(** The bucket holds, where the definition points, a bundle that executes
    to the module [check_functions]. *)
Definition loads (w : env) (s3_location check_functions_file : string)
    (check_functions : pymodule) : Prop :=
  get_object w (bundle_bucket s3_location)
    (bundle_key s3_location check_functions_file)
  = GetObjectResponse (BodySource check_functions None).

(** The entry of a criterion that earned nothing because of [message]. *)
Definition failed_entry (criterion : criterion) (message : string)
  : result_entry :=
  {| criterionId := crit_id criterion;
     name := crit_name criterion;
     points := 0;
     maxPoints := criterion_points criterion;
     implemented := PBool false;
     details := None;
     error := Some message |}.

(** The entry of a criterion whose routine returned [v]: the failure entry
    when [v] is not a dict with the key ['implemented'], and otherwise the
    entry that carries the value stored under that key. *)
Definition returned_entry (criterion : criterion) (v : pyval) : result_entry :=
  match v with
  | PDict d =>
      match dict_get "implemented" d with
      | Some verdict =>
          {| criterionId := crit_id criterion;
             name := crit_name criterion;
             points := if truthy verdict then criterion_points criterion else 0;
             maxPoints := criterion_points criterion;
             implemented := verdict;
             details := Some (get_or (dict_get "details" d) (PDict []));
             error := None |}
      | None =>
          failed_entry criterion
            "Check function result must include 'implemented' key"
      end
  | _ => failed_entry criterion "Check function must return a dictionary"
  end.

(** What a call that ended as [c] gives its criterion: an entry, or what
    leaves the loop. *)
Definition outcome_of (criterion : criterion) (c : completion)
  : thrown + result_entry :=
  match c with
  | Returns v => inr (returned_entry criterion v)
  | Raises (Exc e) => inr (failed_entry criterion (str e))
  | Raises (Exit class_name) => inl (Exit class_name)
  end.

(** The state a run leaves when resolving fails: the registry was read,
    the error metric was put, and nothing else happened. *)
Definition aborted_resolving (w : env) (challenge_id : string) (st : state)
  : state :=
  log_call (CallPutMetricData (AssessmentErrors challenge_id))
    (log_call (CallGetItem (registry_table_name w) challenge_id) st).

(** Every criterion names its check function. *)
Definition names_routines (challenge_config : challenge_config) : Prop :=
  Forall (fun criterion => is_Some (crit_checkFunction criterion))
         (criteria_of challenge_config).

End Engine.

(** ** The assessment trigger (JavaScript Lambda) *)

Module Trigger.

(** *** Data *)

(** The trigger event, by the properties the handler reads.  [None] is
    [undefined].  [detail_type] is [event['detail-type']], [detail_stackId]
    is [event.detail?.stackId], and [pathParameters_participantId] is
    [event.pathParameters.participantId] guarded by [event.pathParameters]. *)
Record event := Event {
  source : option string;
  detail_type : option string;
  httpMethod : option string;
  path : option string;
  detail_stackId : option string;
  pathParameters_participantId : option string;
  participantId : option string;
}.

(** A string used as a condition: [undefined] and [''] are falsy. *)
Definition truthy (o : option string) : bool :=
  match o with
  | Some s => negb (String.eqb s "")
  | None => false
  end.

(** [o === s] for a string literal [s]. *)
Definition is_str (o : option string) (s : string) : bool :=
  match o with
  | Some t => String.eqb t s
  | None => false
  end.

Inductive query_response :=
| QueryRaises (message : string)
| QueryResponse (Items : list string).

Inductive list_stacks_response :=
| ListStacksRaises (message : string)
| ListStacksResponse (StackSummaries : list string).

Inductive invoke_response :=
| InvokeRaises (message : string)
| InvokeResponse (RequestId : option string).

(** The payload of an invocation of the engine (without its timestamp). *)
Record payload := Payload {
  payload_participantId : string;
  payload_source : string;
}.

(** What the services answer during one invocation: the query on the
    status index gives the [participantId] of each item, the stack listing
    the [StackName] of each summary. *)
Record env := Env {
  query : query_response;
  listStacks : list_stacks_response;
  invoke : payload -> invoke_response;
}.

Inductive call :=
| CallQuery
| CallListStacks
| CallInvoke (p : payload).

Inductive status := triggered | failed.

(** The object [triggerAssessment] resolves to. *)
Record dispatch_record := DispatchRecord {
  rec_participantId : string;
  rec_source : string;
  rec_status : status;
  requestId : option string;
  error : option string;
}.

(** The parsed body of the handler's response. *)
Record body := Body {
  message : string;
  body_source : option string;
  results : list dispatch_record;
}.

Record response := Response {
  statusCode : Z;
  resp_body : body;
}.

(** *** Normalising the event *)

Definition identifyEventSource (event : event) : string :=
  if truthy (source event) then get_or (source event) ""
  else if is_str (detail_type event) "Scheduled Event" then "scheduled-event"
  else if is_str (detail_type event) "CloudFormation Stack Status Change"
  then "resource-change"
  else if truthy (httpMethod event) && truthy (path event) then "manual-api"
  else "unknown".

(** [[...new Set(values)]]: a [Set] keeps the first occurrence of each
    value, in insertion order.  [seen] is the set built so far. *)
Fixpoint set_add_all (seen values : list string) : list string :=
  match values with
  | [] => seen
  | v :: rest =>
      if bool_decide (v ∈ seen) then set_add_all seen rest
      else set_add_all (seen ++ [v]) rest
  end.

Definition new_Set (values : list string) : list string :=
  set_add_all [] values.

Definition stack_prefix : string := "ctf-unreliable-app-".

(** [stackName.replace('ctf-unreliable-app-', '').split('-')[0]]. *)
Definition participant_of_stack (stackName : string) : string :=
  fst (split_once "-" (remove_first stack_prefix stackName)).

Definition getParticipantsFromStacks (w : env) : list string * list call :=
  (match listStacks w with
   | ListStacksRaises _ => []
   | ListStacksResponse StackSummaries =>
       new_Set (map participant_of_stack
                    (filter (fun n => String.prefix stack_prefix n = true)
                            StackSummaries))
   end,
   [CallListStacks]).

Definition getActiveParticipants (w : env) : list string * list call :=
  match query w with
  | QueryResponse Items => (new_Set Items, [CallQuery])
  | QueryRaises _ =>
      let '(ids, calls) := getParticipantsFromStacks w in
      (ids, CallQuery :: calls)
  end.

(** [stackId.split('/')[1]], [undefined] when [stackId] has no ['/']. *)
Definition stack_name_of_id (stackId : string) : option string :=
  match snd (split_once "/" stackId) with
  | Some rest => Some (fst (split_once "/" rest))
  | None => None
  end.

Definition extractParticipantIds (w : env) (event : event) (source : string)
  : list string * list call :=
  if String.eqb source "scheduled-event" then getActiveParticipants w
  else if String.eqb source "resource-change" then
    (if truthy (detail_stackId event) then
       let stackName := stack_name_of_id (get_or (detail_stackId event) "") in
       if negb (truthy stackName)
          || negb (String.prefix stack_prefix (get_or stackName ""))
       then []
       else [participant_of_stack (get_or stackName "")]
     else [],
     [])
  else if String.eqb source "manual-api" then
    (if truthy (pathParameters_participantId event)
     then [get_or (pathParameters_participantId event) ""]
     else if truthy (participantId event)
     then [get_or (participantId event) ""]
     else [],
     [])
  else ([], []).

(** *** Dispatching *)

Definition triggerAssessment (w : env) (participantId source : string)
  : dispatch_record * call :=
  let params :=
    {| payload_participantId := participantId; payload_source := source |} in
  (match invoke w params with
   | InvokeResponse RequestId =>
       {| rec_participantId := participantId;
          rec_source := source;
          rec_status := triggered;
          requestId := RequestId;
          error := None |}
   | InvokeRaises message =>
       {| rec_participantId := participantId;
          rec_source := source;
          rec_status := failed;
          requestId := None;
          error := Some message |}
   end,
   CallInvoke params).

Definition has_status (s : status) (r : dispatch_record) : bool :=
  match s, rec_status r with
  | triggered, triggered | failed, failed => true
  | _, _ => false
  end.

(** [handler]: the response and the service calls made, oldest first.
    [Promise.all] over [participantIds.map] starts the invocations in list
    order and keeps the results in that order.  With events and answers
    typed as above nothing in the [try] block throws, so the [catch] clause
    (status 500) has no counterpart here. *)
Definition handler (w : env) (event : event) : response * list call :=
  let source := identifyEventSource event in
  let '(participantIds, calls) := extractParticipantIds w event source in
  match participantIds with
  | [] =>
      ({| statusCode := 200;
          resp_body := {| message := "No participants to assess";
                          body_source := None;
                          results := [] |} |},
       calls)
  | _ =>
      let triggers :=
        map (fun participantId => triggerAssessment w participantId source)
            participantIds in
      let results := map fst triggers in
      let successful := length (filter (fun r => has_status triggered r = true) results) in
      let failed := length (filter (fun r => has_status failed r = true) results) in
      ({| statusCode := 200;
          resp_body := {| message := "Triggered " +:+ pretty successful
                                     +:+ " assessments (" +:+ pretty failed
                                     +:+ " failed)";
                          body_source := Some source;
                          results := results |} |},
       calls ++ map snd triggers)
  end.

(** The participants the engine was invoked for, in call order. *)
Definition invoked (calls : list call) : list string :=
  omap (fun c => match c with
                 | CallInvoke p => Some (payload_participantId p)
                 | _ => None
                 end) calls.

End Trigger.

(** ** Sample inputs *)

Module Samples.

Import Engine.

(** *** Engine: a two-criterion definition and its check functions *)

Definition pitr : criterion :=
  {| crit_id := Some "pitr"; crit_name := Some "Point-in-time recovery";
     crit_checkFunction := Some "checkBackup"; crit_points := Some 10 |}.

Definition dlq : criterion :=
  {| crit_id := Some "dlq"; crit_name := Some "Dead letter queue";
     crit_checkFunction := Some "checkDLQ"; crit_points := Some 10 |}.

Definition definition : challenge_config :=
  {| active := Some (PStr "true");
     s3Location := Some "s3://ctf-challenges/voting-system/";
     checkFunctionsFile := Some "check-functions.py";
     stackNamePrefix := None;
     assessmentCriteria := Some [pitr; dlq];
     passingScore := Some 15;
     other := [("difficulty", PStr "intermediate")] |}.

(** A check function that runs for [ms] milliseconds and then ends as
    [c], whatever it is called with; it assigns no variable of its module
    and catches nothing, so the alarm's [TimeoutError] goes through it. *)
Definition after (ms : Z) (c : completion) : routine :=
  fun _ _ _ vars =>
    {| elapsed_ms := ms;
       undisturbed := {| completes := c; leaves := vars |};
       interrupted := {| completes := Raises (Exc timed_out);
                         leaves := vars |} |}.

Definition says (v : pyval) : completion :=
  Returns (PDict [("implemented", v)]).

Definition bundle : pymodule :=
  {[ "checkBackup" := after 1200 (says (PBool true));
     "checkDLQ" := after 800 (says (PBool false)) ]}.

Definition no_environ : environ :=
  {| CHALLENGE_REGISTRY_TABLE := None;
     ASSESSMENT_RESULTS_TABLE := None;
     TEAM_ACCOUNT_MAPPING := None;
     DEFAULT_TEAM_ACCOUNT_ID := None;
     ASSESSMENT_ENGINE_EXTERNAL_ID := None |}.

(** A world where the registry holds [cfg] for every key, the bucket holds
    [body], and every other service answers. *)
Definition world (cfg : challenge_config) (body : s3_body) : env :=
  {| os_environ := no_environ;
     get_item := fun _ _ => GetItemResponse (Some cfg);
     get_object := fun _ _ => GetObjectResponse body;
     assume_role := fun _ _ => AssumeRoleResponse "AKIA" "secret" "token";
     put_item := fun _ _ => PutOk;
     time_at_load := 1700000000250;
     time_at_store := 1700000003000 |}.

Definition healthy : env := world definition (BodySource bundle None).

Definition request : event :=
  {| participantId := Some "alice";
     challengeId := Some "reliability-voting-system";
     teamId := None |}.

Definition fresh : state :=
  {| sys_modules := ∅; results_table := ∅; calls := [];
     module_vars := ∅; alarm := None |}.

Definition creds : credentials :=
  {| aws_access_key_id := "AKIA";
     aws_secret_access_key := "secret";
     aws_session_token := "token" |}.

Definition alice : string := "alice".
Definition voting : string := "reliability-voting-system".

(** What the healthy run evaluates to, and the state it evaluates in. *)
Definition entries : list result_entry :=
  [ {| criterionId := Some "pitr"; name := Some "Point-in-time recovery";
       points := 10; maxPoints := 10; implemented := PBool true;
       details := Some (PDict []); error := None |};
    {| criterionId := Some "dlq"; name := Some "Dead letter queue";
       points := 0; maxPoints := 10; implemented := PBool false;
       details := Some (PDict []); error := None |} ].

Definition verdict : response := result_of request alice voting definition entries.

Definition authorized (body : pymodule) : state :=
  {| sys_modules := {[ "check_functions_1700000000" := body ]};
     results_table := ∅;
     calls :=
       [ CallGetItem "ctf-challenge-registry" voting;
         CallGetObject "ctf-challenges" "voting-system/check-functions.py";
         CallAssumeRole
           "arn:aws:iam::123456789012:role/AssessmentEngineAccessRole"
           "ctf-assessment-engine" ];
     module_vars := ∅;
     alarm := None |}.

(** *** Engine: routines that fail, and services that fail *)

(** [checkBackup] raises, [checkDLQ] outlives the alarm. *)
Definition faulty_bundle : pymodule :=
  {[ "checkBackup" := after 500 (Raises (Exc (Exn OtherError "AccessDenied")));
     "checkDLQ" := after 31000 (says (PBool true)) ]}.

Definition faulty_entries : list result_entry :=
  [ failed_entry pitr "AccessDenied";
    failed_entry dlq "Check function execution timed out" ].

(** Only [checkBackup] is there. *)
Definition partial_bundle : pymodule :=
  {[ "checkBackup" := after 1200 (says (PBool true)) ]}.

(** [checkBackup] answers with a string, [checkDLQ] with no verdict. *)
Definition sloppy_bundle : pymodule :=
  {[ "checkBackup" := after 1200 (says (PStr "yes"));
     "checkDLQ" := after 800 (Returns (PDict [("details", PDict [])])) ]}.

Definition sloppy_entries : list result_entry :=
  [ {| criterionId := Some "pitr"; name := Some "Point-in-time recovery";
       points := 10; maxPoints := 10; implemented := PStr "yes";
       details := Some (PDict []); error := None |};
    failed_entry dlq "Check function result must include 'implemented' key" ].

Definition throttled : exn :=
  Exn ClientError "ProvisionedThroughputExceededException".

(** The results table refuses the write. *)
Definition store_down : env :=
  {| os_environ := no_environ;
     get_item := get_item healthy;
     get_object := get_object healthy;
     assume_role := assume_role healthy;
     put_item := fun _ _ => PutRaises throttled;
     time_at_load := time_at_load healthy;
     time_at_store := time_at_store healthy |}.

(** The bucket cannot be read. *)
Definition bucket_down : env :=
  {| os_environ := no_environ;
     get_item := get_item healthy;
     get_object := fun _ _ => GetObjectRaises (Exn ClientError "NoSuchKey");
     assume_role := assume_role healthy;
     put_item := put_item healthy;
     time_at_load := time_at_load healthy;
     time_at_store := time_at_store healthy |}.

(** The registry cannot be read. *)
Definition registry_down : env :=
  {| os_environ := no_environ;
     get_item := fun _ _ => GetItemRaises throttled;
     get_object := get_object healthy;
     assume_role := assume_role healthy;
     put_item := put_item healthy;
     time_at_load := time_at_load healthy;
     time_at_store := time_at_store healthy |}.

(** The role cannot be assumed. *)
Definition sts_down : env :=
  {| os_environ := no_environ;
     get_item := get_item healthy;
     get_object := get_object healthy;
     assume_role := fun _ _ => AssumeRoleRaises (Exn ClientError "AccessDenied");
     put_item := put_item healthy;
     time_at_load := time_at_load healthy;
     time_at_store := time_at_store healthy |}.

(** The registry holds nothing. *)
Definition empty_registry : env :=
  {| os_environ := no_environ;
     get_item := fun _ _ => GetItemResponse None;
     get_object := get_object healthy;
     assume_role := assume_role healthy;
     put_item := put_item healthy;
     time_at_load := time_at_load healthy;
     time_at_store := time_at_store healthy |}.

(** The definition with [active] stored as [v]. *)
Definition stored_active (v : option pyval) : challenge_config :=
  {| active := v;
     s3Location := s3Location definition;
     checkFunctionsFile := checkFunctionsFile definition;
     stackNamePrefix := stackNamePrefix definition;
     assessmentCriteria := assessmentCriteria definition;
     passingScore := passingScore definition;
     other := other definition |}.

(** A world whose registry holds the definition with [active] stored as
    the boolean [True]. *)
Definition flagged : env :=
  world (stored_active (Some (PBool true))) (BodySource bundle None).

(** The definition with one more attribute, a deadline in seconds. *)
Definition with_deadline (seconds : Z) : challenge_config :=
  {| active := active definition;
     s3Location := s3Location definition;
     checkFunctionsFile := checkFunctionsFile definition;
     stackNamePrefix := stackNamePrefix definition;
     assessmentCriteria := assessmentCriteria definition;
     passingScore := passingScore definition;
     other := ("timeoutSeconds", PInt seconds) :: other definition |}.

(** [checkBackup] needs 45 seconds, [checkDLQ] 20. *)
Definition slow_bundle : pymodule :=
  {[ "checkBackup" := after 45000 (says (PBool true));
     "checkDLQ" := after 20000 (says (PBool true)) ]}.

Definition slow_entries : list result_entry :=
  [ failed_entry pitr "Check function execution timed out";
    {| criterionId := Some "dlq"; name := Some "Dead letter queue";
       points := 10; maxPoints := 10; implemented := PBool true;
       details := Some (PDict []); error := None |} ].

(** A check function that needs [ms] milliseconds and has its work inside
    [try: ... except Exception: pass]: cut off by the alarm, it goes on to
    its [return] and answers [v] all the same. *)
Definition swallowing (ms : Z) (v : pyval) : routine :=
  fun _ _ _ vars =>
    {| elapsed_ms := ms;
       undisturbed := {| completes := says v; leaves := vars |};
       interrupted := {| completes := says v; leaves := vars |} |}.

(** [checkBackup] needs 45 seconds and swallows the alarm's error. *)
Definition deaf_bundle : pymodule :=
  {[ "checkBackup" := swallowing 45000 (PBool true);
     "checkDLQ" := after 800 (says (PBool false)) ]}.

Definition deaf_entries : list result_entry :=
  [ {| criterionId := Some "pitr"; name := Some "Point-in-time recovery";
       points := 10; maxPoints := 10; implemented := PBool true;
       details := Some (PDict []); error := None |};
    {| criterionId := Some "dlq"; name := Some "Dead letter queue";
       points := 0; maxPoints := 10; implemented := PBool false;
       details := Some (PDict []); error := None |} ].

(** [checkBackup] calls [sys.exit()]. *)
Definition exiting_bundle : pymodule :=
  {[ "checkBackup" := after 300 (Raises (Exit "SystemExit"));
     "checkDLQ" := after 800 (says (PBool false)) ]}.

(** The definition with a third criterion that names no check function. *)
Definition audit : criterion :=
  {| crit_id := Some "audit"; crit_name := Some "Audit trail";
     crit_checkFunction := None; crit_points := Some 5 |}.

Definition with_audit : challenge_config :=
  {| active := active definition;
     s3Location := s3Location definition;
     checkFunctionsFile := checkFunctionsFile definition;
     stackNamePrefix := stackNamePrefix definition;
     assessmentCriteria := Some [pitr; dlq; audit];
     passingScore := passingScore definition;
     other := other definition |}.

(** A second bundle, for another definition. *)
Definition other_bundle : pymodule :=
  {[ "checkThrottling" := after 300 (says (PBool true)) ]}.

(** The same world a little later in the same second, serving
    [other_bundle]. *)
Definition later_same_second : env :=
  {| os_environ := no_environ;
     get_item := get_item healthy;
     get_object := fun _ _ => GetObjectResponse (BodySource other_bundle None);
     assume_role := assume_role healthy;
     put_item := put_item healthy;
     time_at_load := 1700000000900;
     time_at_store := time_at_store healthy |}.

End Samples.

(** Sample inputs of the trigger. *)

Module TriggerSamples.

Import Trigger.

(** The event of the repository's trigger test: what EventBridge sends on
    a schedule. *)
Definition scheduled_event : event :=
  {| source := Some "aws.events";
     detail_type := Some "Scheduled Event";
     httpMethod := None;
     path := None;
     detail_stackId := None;
     pathParameters_participantId := None;
     participantId := None |}.

(** The same event without its [source]. *)
Definition bare_scheduled_event : event :=
  {| source := None;
     detail_type := Some "Scheduled Event";
     httpMethod := None;
     path := None;
     detail_stackId := None;
     pathParameters_participantId := None;
     participantId := None |}.

(** The services as the test mocks them: the query gives [Items], every
    invocation is accepted. *)
Definition mocked (Items : list string) : env :=
  {| query := QueryResponse Items;
     listStacks := ListStacksRaises "not mocked";
     invoke := fun _ => InvokeResponse None |}.

Definition two_active : env := mocked ["test-user-1"; "test-user-2"].

End TriggerSamples.

(** ** Substring search *)

Module Substring.

(** JavaScript's [s.includes(pat)] and Python's [pat in s]: [pat] occurs
    somewhere in [s]. *)
Fixpoint includes (pat s : string) : bool :=
  if String.prefix pat s then true
  else
    match s with
    | EmptyString => false
    | String _ s' => includes pat s'
    end.

End Substring.

Export Substring.

(** ** The stack assessment (JavaScript Lambda) and the stack analyzer *)

Module StackEngine.

(** *** Data *)

(** A JSON value met in a template property, as far as the checks tell
    values apart; [JOther] is any array or object. *)
Inductive json :=
| JNull
| JBool (b : bool)
| JNumber (z : Z)
| JString (s : string)
| JOther.

(** The value used as a condition. *)
Definition truthy (v : json) : bool :=
  match v with
  | JNull => false
  | JBool b => b
  | JNumber z => negb (Z.eqb z 0)
  | JString s => negb (String.eqb s "")
  | JOther => true
  end.

(** [v === true]. *)
Definition is_true (v : option json) : bool :=
  match v with
  | Some (JBool true) => true
  | _ => false
  end.

(** A resource of the template, by the properties the checks read; [None]
    is a property that is not there. *)
Record pitr_specification := PitrSpecification {
  PointInTimeRecoveryEnabled : option json;
}.

Record properties := Properties_ {
  Region : option json;
  PointInTimeRecoverySpecification : option pitr_specification;
}.

Record resource := Resource {
  Type_ : option string;
  Properties : option properties;
}.

(** The parsed template: the values of its [Resources] object, in key
    order. *)
Record template := Template {
  Resources : option (list resource);
}.

Record check_result := CheckResult {
  implemented : bool;
  score : Z;
}.

(** What [analyzeStack] resolves to: the two checks, or the message of
    what was thrown. *)
Inductive stack_analysis :=
| Analysis (stackName : string) (multiRegion backups : check_result)
| AnalysisError (stackName : string) (error : string).

(** [getTemplate] rejects, or answers with a body that [JSON.parse]
    rejects or parses. *)
Inductive get_template_response :=
| GetTemplateRaises (message : string)
| TemplateBodyInvalid (message : string)
| TemplateBody (parsed : template).

Inductive write_response :=
| WriteRaises (message : string)
| WriteOk.

(** The item [revealFlag] puts (without its timestamp). *)
Record flag_item := FlagItem {
  flag_challengeId : string;
  flag_participantId : string;
  flag : string;
  revealed : bool;
}.

Record env := Env {
  SYSTEM_METRICS_TABLE : option string;
  FLAGS_TABLE : option string;
  getTemplate : string -> get_template_response;
  update : string -> Z -> write_response;
  put : flag_item -> write_response;
}.

Inductive call :=
| CallGetTemplate (StackName : string)
| CallUpdate (TableName : option string) (metricId participantId : string)
    (score : Z)
| CallPut (TableName : option string) (Item : flag_item).

Record event := Event {
  participantId : option string;
}.

(** The object the handler resolves to (without its timestamp). *)
Record result := Result {
  res_participantId : string;
  res_score : Z;
  passed : bool;
}.

(** *** The stack analyzer *)

(** [resource.Properties && resource.Properties.Region], as a condition. *)
Definition has_region (r : resource) : bool :=
  match Properties r with
  | Some p => match Region p with Some v => truthy v | None => false end
  | None => false
  end.

Definition checkMultiRegionSetup (template : template) : check_result :=
  let resources := get_or (Resources template) [] in
  let hasMultiRegionConfig := existsb has_region resources in
  {| implemented := hasMultiRegionConfig;
     score := if hasMultiRegionConfig then 100 else 0 |}.

Definition is_table (r : resource) : bool :=
  match Type_ r with
  | Some t => String.eqb t "AWS::DynamoDB::Table"
  | None => false
  end.

(** [table.Properties && table.Properties.PointInTimeRecoverySpecification
    && ....PointInTimeRecoveryEnabled === true]. *)
Definition has_pitr (table : resource) : bool :=
  match Properties table with
  | Some p =>
      match PointInTimeRecoverySpecification p with
      | Some spec => is_true (PointInTimeRecoveryEnabled spec)
      | None => false
      end
  | None => false
  end.

Definition checkBackupConfigurations (template : template) : check_result :=
  let resources := get_or (Resources template) [] in
  let dynamoDBTables := List.filter is_table resources in
  let tablesWithPITR := List.filter has_pitr dynamoDBTables in
  let implemented := (0 <? length tablesWithPITR)%nat in
  {| implemented := implemented;
     score := if implemented then 100 else 0 |}.

Definition analyzeStack (w : env) (stackName : string)
  : stack_analysis * list call :=
  (match getTemplate w stackName with
   | GetTemplateRaises message => AnalysisError stackName message
   | TemplateBodyInvalid message => AnalysisError stackName message
   | TemplateBody template =>
       Analysis stackName (checkMultiRegionSetup template)
         (checkBackupConfigurations template)
   end,
   [CallGetTemplate stackName]).

(** *** The handler *)

(** [Math.round(n / 2)] for an integer [n]: the half is rounded up. *)
Definition round_half (n : Z) : Z := (n + 1) / 2.

(** [calculateScore].  An analysis that failed with an empty message is
    not recognised as failed ([''] is falsy), and reading its missing
    [analysis] throws. *)
Definition calculateScore (stackAnalysis : stack_analysis) : string + Z :=
  match stackAnalysis with
  | AnalysisError _ error =>
      if negb (String.eqb error "") then inr 0
      else inl "Cannot read properties of undefined (reading 'multiRegion')"
  | Analysis _ multiRegion backups =>
      let multiRegionScore := score multiRegion in
      let backupsScore := score backups in
      inr (round_half (multiRegionScore + backupsScore))
  end.

Definition stack_name_for (participantId : string) : string :=
  "ctf-unreliable-app-" +:+ participantId +:+ "-dev".

Definition flag_for (participantId : string) : flag_item :=
  {| flag_challengeId := "reliability-pillar";
     flag_participantId := participantId;
     flag := "CTF{" +:+ participantId +:+ "_reliability_master}";
     revealed := true |}.

(** [handler]: what it resolves to or throws, and the calls made, oldest
    first. *)
Definition handler (w : env) (event : event) : (string + result) * list call :=
  match participantId event with
  | None => (inl "Missing participantId", [])
  | Some participantId =>
      if String.eqb participantId "" then (inl "Missing participantId", [])
      else
        let '(stackAnalysis, calls) :=
          analyzeStack w (stack_name_for participantId) in
        match calculateScore stackAnalysis with
        | inl message => (inl message, calls)
        | inr reliabilityScore =>
            let calls :=
              calls ++ [CallUpdate (SYSTEM_METRICS_TABLE w) "reliability-score"
                          participantId reliabilityScore] in
            match update w participantId reliabilityScore with
            | WriteRaises message => (inl message, calls)
            | WriteOk =>
                let passed := 80 <=? reliabilityScore in
                let result :=
                  {| res_participantId := participantId;
                     res_score := reliabilityScore;
                     passed := passed |} in
                if passed then
                  let calls :=
                    calls ++ [CallPut (FLAGS_TABLE w) (flag_for participantId)] in
                  match put w (flag_for participantId) with
                  | WriteRaises message => (inl message, calls)
                  | WriteOk => (inr result, calls)
                  end
                else (inr result, calls)
            end
        end
  end.

(** The flags put, in call order. *)
Definition flags_put (calls : list call) : list flag_item :=
  omap (fun c => match c with CallPut _ item => Some item | _ => None end)
       calls.

End StackEngine.

(** ** The code analyzer (JavaScript) *)

Module CodeAnalyzer.

Record pattern_result := PatternResult {
  implemented : bool;
  score : Z;
}.

(** [(b ? n : 0)]. *)
Definition worth (b : bool) (n : Z) : Z := if b then n else 0.

Definition checkErrorHandling (codeString : string) : pattern_result :=
  let hasTryCatch :=
    includes "try" codeString && includes "catch" codeString in
  let hasErrorLogging :=
    includes "console.error" codeString || includes "logger.error" codeString in
  let hasErrorResponse :=
    includes "statusCode: 500" codeString
    || includes "statusCode: 400" codeString in
  {| implemented := hasTryCatch;
     score := worth hasTryCatch 40 + worth hasErrorLogging 30
              + worth hasErrorResponse 30 |}.

Definition checkRetryLogic (codeString : string) : pattern_result :=
  let hasRetry :=
    includes "retry" codeString
    || includes "attempt" codeString && includes "maxAttempts" codeString in
  let hasBackoff :=
    includes "backoff" codeString
    || includes "setTimeout" codeString && includes "Math.pow" codeString in
  {| implemented := hasRetry;
     score := worth hasRetry 60 + worth hasBackoff 40 |}.

Definition checkCircuitBreaker (codeString : string) : pattern_result :=
  let hasCircuitBreaker :=
    includes "circuitBreaker" codeString
    || (includes "circuit" codeString && includes "breaker" codeString) in
  {| implemented := hasCircuitBreaker;
     score := if hasCircuitBreaker then 100 else 0 |}.

Definition checkIdempotency (codeString : string) : pattern_result :=
  let hasIdempotencyToken :=
    includes "idempotency" codeString || includes "requestId" codeString in
  let hasConditionalWrite :=
    includes "ConditionalExpression" codeString
    || includes "attribute_not_exists" codeString in
  {| implemented := hasIdempotencyToken || hasConditionalWrite;
     score := worth hasIdempotencyToken 50 + worth hasConditionalWrite 50 |}.

Definition checkAsyncProcessing (codeString : string) : pattern_result :=
  let hasSQS := includes "SQS" codeString || includes "sendMessage" codeString in
  let hasSNS := includes "SNS" codeString || includes "publish" codeString in
  let hasEventBridge :=
    includes "EventBridge" codeString || includes "putEvents" codeString in
  {| implemented := hasSQS || hasSNS || hasEventBridge;
     score := worth hasSQS 40 + worth hasSNS 30 + worth hasEventBridge 30 |}.

(** [b2] holds whenever [b1] does. *)
Definition leb (b1 b2 : bool) : Prop := b1 = true -> b2 = true.

(** The five checks, in the order [analyzeCode] runs them. *)
Definition checks : list (string -> pattern_result) :=
  [checkErrorHandling; checkRetryLogic; checkCircuitBreaker;
   checkIdempotency; checkAsyncProcessing].

End CodeAnalyzer.

(** ** A check function of the sample bundle (Python) *)

Module SampleChecks.

Import Engine.

Inductive list_tables_response :=
| ListTablesRaises (e : exn)
| ListTablesResponse (TableNames : option (list string)).

(** The answer of [describe_continuous_backups], by the one value the
    check reads:
    [ContinuousBackupsDescription.PointInTimeRecoveryDescription.PointInTimeRecoveryStatus],
    [None] when any of the three keys is missing. *)
Inductive describe_backups_response :=
| DescribeBackupsRaises (e : exn)
| DescribeBackupsResponse (PointInTimeRecoveryStatus : option string).

(** The DynamoDB client of the session the check builds: from the
    credentials it is given, or the default one. *)
Record dynamodb := DynamoDB {
  list_tables : option credentials -> list_tables_response;
  describe_continuous_backups :
    option credentials -> string -> describe_backups_response;
}.

(** The second loop of [check_dynamodb_backups], [tables_with_pitr] and
    [table_details] being the counter and the list built so far. *)
Fixpoint check_tables (db : dynamodb) (session : option credentials)
    (participant_tables : list string) (tables_with_pitr : Z)
    (table_details : list pyval) : Z * list pyval :=
  match participant_tables with
  | [] => (tables_with_pitr, table_details)
  | table_name :: rest =>
      match describe_continuous_backups db session table_name with
      | DescribeBackupsResponse status =>
          let has_pitr :=
            match status with
            | Some s => String.eqb s "ENABLED"
            | None => false
            end in
          check_tables db session rest
            (if has_pitr then tables_with_pitr + 1 else tables_with_pitr)
            (table_details
             ++ [PDict [("tableName", PStr table_name);
                        ("hasPITR", PBool has_pitr)]])
      | DescribeBackupsRaises e =>
          check_tables db session rest tables_with_pitr
            (table_details
             ++ [PDict [("tableName", PStr table_name);
                        ("hasPITR", PBool false);
                        ("error", PStr (str e))]])
      end
  end.

(** [check_dynamodb_backups(participant_id, stack_name, credentials)]:
    the dict it returns, or what [list_tables] raised. *)
Definition check_dynamodb_backups (db : dynamodb)
    (participant_id stack_name : string) (credentials : option credentials)
  : exn + pyval :=
  match list_tables db credentials with
  | ListTablesRaises e => inl e
  | ListTablesResponse TableNames =>
      let participant_tables :=
        List.filter
          (fun table_name =>
             includes participant_id table_name
             || includes stack_name table_name)
          (get_or TableNames []) in
      let '(tables_with_pitr, table_details) :=
        check_tables db credentials participant_tables 0 [] in
      inr (PDict
             [("implemented",
               PBool ((0 <? tables_with_pitr)
                      && (tables_with_pitr
                          =? Z.of_nat (length participant_tables))));
              ("details",
               PDict [("tablesChecked",
                       PInt (Z.of_nat (length participant_tables)));
                      ("tablesWithPITR", PInt tables_with_pitr);
                      ("tableDetails", PList table_details)])])
  end.

(** Where the alarm's [TimeoutError] lands in the check, when the check
    is still running as the alarm goes off: in a call the check makes
    outside any [try] block ([list_tables]), or in the
    [describe_continuous_backups] call for the table at index [i] of the
    participant's tables, which is inside the [try] block of the second
    loop. *)
Inductive landing :=
| InListTables
| InDescribe (i : nat).

(** The second loop with the [TimeoutError] landing in iteration [cut]:
    the [except Exception] clause takes it for that table's error, and the
    loop goes on with the tables that are left. *)
Fixpoint check_tables_cut (db : dynamodb) (session : option credentials)
    (participant_tables : list string) (cut : nat) (tables_with_pitr : Z)
    (table_details : list pyval) : Z * list pyval :=
  match participant_tables with
  | [] => (tables_with_pitr, table_details)
  | table_name :: rest =>
      match cut with
      | O =>
          check_tables db session rest tables_with_pitr
            (table_details
             ++ [PDict [("tableName", PStr table_name);
                        ("hasPITR", PBool false);
                        ("error", PStr (str timed_out))]])
      | S cut' =>
          match describe_continuous_backups db session table_name with
          | DescribeBackupsResponse status =>
              let has_pitr :=
                match status with
                | Some s => String.eqb s "ENABLED"
                | None => false
                end in
              check_tables_cut db session rest cut'
                (if has_pitr then tables_with_pitr + 1 else tables_with_pitr)
                (table_details
                 ++ [PDict [("tableName", PStr table_name);
                            ("hasPITR", PBool has_pitr)]])
          | DescribeBackupsRaises e =>
              check_tables_cut db session rest cut' tables_with_pitr
                (table_details
                 ++ [PDict [("tableName", PStr table_name);
                            ("hasPITR", PBool false);
                            ("error", PStr (str e))]])
          end
      end
  end.

(** How the check ends when the alarm goes off inside it.  Landing in
    [list_tables], the [TimeoutError] leaves the check; landing in the
    [describe_continuous_backups] call of a table, it is caught there and
    the check returns its dict. *)
Definition check_dynamodb_backups_cut (db : dynamodb)
    (participant_id stack_name : string) (credentials : option credentials)
    (spot : landing) : completion :=
  match spot, list_tables db credentials with
  | InListTables, _ => Raises (Exc timed_out)
  | InDescribe _, ListTablesRaises e => Raises (Exc e)
  | InDescribe i, ListTablesResponse TableNames =>
      let participant_tables :=
        List.filter
          (fun table_name =>
             includes participant_id table_name
             || includes stack_name table_name)
          (get_or TableNames []) in
      if (i <? length participant_tables)%nat
      then
        let '(tables_with_pitr, table_details) :=
          check_tables_cut db credentials participant_tables i 0 [] in
        Returns
          (PDict
             [("implemented",
               PBool ((0 <? tables_with_pitr)
                      && (tables_with_pitr
                          =? Z.of_nat (length participant_tables))));
              ("details",
               PDict [("tablesChecked",
                       PInt (Z.of_nat (length participant_tables)));
                      ("tablesWithPITR", PInt tables_with_pitr);
                      ("tableDetails", PList table_details)])])
      else Raises (Exc timed_out)
  end.

(** The check as an attribute of a loaded module: it runs for [elapsed]
    milliseconds against [db], and [spot] is where the alarm would catch
    it.  It assigns no variable of its module. *)
Definition as_routine (db : dynamodb) (elapsed : Z) (spot : landing)
  : routine :=
  fun participant_id stack_name credentials vars =>
    {| elapsed_ms := elapsed;
       undisturbed :=
         {| completes :=
              match check_dynamodb_backups db participant_id stack_name
                      (Some credentials) with
              | inl e => Raises (Exc e)
              | inr v => Returns v
              end;
            leaves := vars |};
       interrupted :=
         {| completes :=
              check_dynamodb_backups_cut db participant_id stack_name
                (Some credentials) spot;
            leaves := vars |} |}.

(** The tables the check looks at, and those it finds protected. *)
Definition participant_tables (db : dynamodb) (session : option credentials)
    (participant_id stack_name : string) : list string :=
  match list_tables db session with
  | ListTablesResponse TableNames =>
      List.filter
        (fun table_name =>
           includes participant_id table_name
           || includes stack_name table_name)
        (get_or TableNames [])
  | ListTablesRaises _ => []
  end.

Definition protected (db : dynamodb) (session : option credentials)
    (table_name : string) : bool :=
  match describe_continuous_backups db session table_name with
  | DescribeBackupsResponse (Some s) => String.eqb s "ENABLED"
  | _ => false
  end.

(** The verdict of the check, as a condition on the tables it looks at:
    there is one, and every one is protected. *)
Definition all_protected (db : dynamodb) (session : option credentials)
    (participant_id stack_name : string) : bool :=
  let tables := participant_tables db session participant_id stack_name in
  match tables with
  | [] => false
  | _ => forallb (protected db session) tables
  end.

End SampleChecks.

(** ** More sample inputs *)

Module MoreSamples.

Import Engine Samples.

(** *** Engine *)

(** A request without a participant. *)
Definition anonymous : Engine.event :=
  {| participantId := None; challengeId := Some voting; teamId := None |}.

(** The definition with other criteria. *)
Definition with_criteria (criteria : option (list criterion))
  : challenge_config :=
  {| active := active definition;
     s3Location := s3Location definition;
     checkFunctionsFile := checkFunctionsFile definition;
     stackNamePrefix := stackNamePrefix definition;
     assessmentCriteria := criteria;
     passingScore := None;
     other := other definition |}.

(** A criterion that names no check function. *)
Definition unnamed : criterion :=
  {| crit_id := Some "audit"; crit_name := Some "Audit trail";
     crit_checkFunction := None; crit_points := Some 5 |}.

(** A bundle whose execution raises after defining its checks. *)
Definition broken : s3_body :=
  BodySource bundle (Some (Exc (Exn OtherError "name 'boto' is not defined"))).

(** A bundle whose execution, after defining its checks, calls a service
    and is refused. *)
Definition refused : s3_body :=
  BodySource bundle (Some (Exc (Exn ClientError "AccessDenied"))).

(** *** Trigger *)

(** A stack change event for alice's stack, without a [source]. *)
Definition stack_changed : Trigger.event :=
  {| Trigger.source := None;
     Trigger.detail_type := Some "CloudFormation Stack Status Change";
     Trigger.httpMethod := None;
     Trigger.path := None;
     Trigger.detail_stackId :=
       Some "arn:aws:cloudformation:us-east-1:123456789012:stack/ctf-unreliable-app-alice-dev/51af3dc0";
     Trigger.pathParameters_participantId := None;
     Trigger.participantId := None |}.

(** The same event as EventBridge delivers it. *)
Definition stack_changed_delivered : Trigger.event :=
  {| Trigger.source := Some "aws.cloudformation";
     Trigger.detail_type := Trigger.detail_type stack_changed;
     Trigger.httpMethod := None;
     Trigger.path := None;
     Trigger.detail_stackId := Trigger.detail_stackId stack_changed;
     Trigger.pathParameters_participantId := None;
     Trigger.participantId := None |}.

(** An event with nothing to recognise it by. *)
Definition blank : Trigger.event :=
  {| Trigger.source := None;
     Trigger.detail_type := None;
     Trigger.httpMethod := None;
     Trigger.path := None;
     Trigger.detail_stackId := None;
     Trigger.pathParameters_participantId := None;
     Trigger.participantId := None |}.

(** The query is down; the stack list holds two stacks of the challenge
    and one that is not. *)
Definition query_down : Trigger.env :=
  {| Trigger.query := Trigger.QueryRaises "ResourceNotFoundException";
     Trigger.listStacks :=
       Trigger.ListStacksResponse
         ["ctf-unreliable-app-alice-dev"; "billing-prod";
          "ctf-unreliable-app-bob-dev"];
     Trigger.invoke := fun _ => Trigger.InvokeResponse None |}.

(** *** Stack assessment *)

Definition table (pitr : option StackEngine.json) : StackEngine.resource :=
  {| StackEngine.Type_ := Some "AWS::DynamoDB::Table";
     StackEngine.Properties :=
       Some {| StackEngine.Region := None;
               StackEngine.PointInTimeRecoverySpecification :=
                 Some {| StackEngine.PointInTimeRecoveryEnabled := pitr |} |} |}.

Definition replica : StackEngine.resource :=
  {| StackEngine.Type_ := Some "Custom::Replica";
     StackEngine.Properties :=
       Some {| StackEngine.Region := Some (StackEngine.JString "eu-west-1");
               StackEngine.PointInTimeRecoverySpecification := None |} |}.

(** A template with a protected table and a resource in a named region. *)
Definition reliable : StackEngine.template :=
  {| StackEngine.Resources :=
       Some [table (Some (StackEngine.JBool true)); replica] |}.

Definition stack_world (t : StackEngine.template) : StackEngine.env :=
  {| StackEngine.SYSTEM_METRICS_TABLE := Some "ctf-system-metrics";
     StackEngine.FLAGS_TABLE := Some "ctf-flags";
     StackEngine.getTemplate := fun _ => StackEngine.TemplateBody t;
     StackEngine.update := fun _ _ => StackEngine.WriteOk;
     StackEngine.put := fun _ => StackEngine.WriteOk |}.

Definition for_alice : StackEngine.event :=
  {| StackEngine.participantId := Some "alice" |}.

(** *** Code analyzer *)

Definition guarded : string := "try { run() } catch (e) { }".

Definition guarded_and_retried : string :=
  "const retry = 3; try { run() } catch (e) { } // backoff".

(** *** Sample check *)

(** Two tables of alice, one of them without point-in-time recovery, and
    a table of someone else. *)
Definition half_protected : SampleChecks.dynamodb :=
  {| SampleChecks.list_tables :=
       fun _ =>
         SampleChecks.ListTablesResponse
           (Some ["votes-alice"; "votes-bob"; "audit-alice"]);
     SampleChecks.describe_continuous_backups :=
       fun _ table_name =>
         if String.eqb table_name "votes-alice"
         then SampleChecks.DescribeBackupsResponse (Some "ENABLED")
         else SampleChecks.DescribeBackupsResponse (Some "DISABLED") |}.

Definition backup_bundle : pymodule :=
  {[ "checkBackup" :=
       SampleChecks.as_routine half_protected 900 SampleChecks.InListTables ]}.

(** The same check against tables that are all protected, this time
    taking 31 seconds, the alarm catching it in the describe call of its
    second table. *)
Definition all_enabled : SampleChecks.dynamodb :=
  {| SampleChecks.list_tables :=
       fun _ =>
         SampleChecks.ListTablesResponse
           (Some ["votes-alice"; "votes-bob"; "audit-alice"]);
     SampleChecks.describe_continuous_backups :=
       fun _ _ => SampleChecks.DescribeBackupsResponse (Some "ENABLED") |}.

Definition slow_backup_bundle : pymodule :=
  {[ "checkBackup" :=
       SampleChecks.as_routine all_enabled 31000
         (SampleChecks.InDescribe 1) ]}.

(** The definition with the backup criterion only. *)
Definition backup_only : challenge_config :=
  with_criteria (Some [pitr]).

End MoreSamples.

(** ** Facts about the engine *)

Module EngineFacts.

Import Engine.

(** *** Sums *)

Lemma fold_left_add_shift (l : list Z) (a : Z) :
  fold_left Z.add l a = a + fold_left Z.add l 0.
Proof.
  revert a. induction l as [|x l IH]; intros a; simpl.
  - lia.
  - rewrite (IH (a + x)), (IH (0 + x)). lia.
Qed.

Lemma sum_cons (x : Z) (l : list Z) : sum (x :: l) = x + sum l.
Proof. unfold sum. simpl. apply fold_left_add_shift. Qed.

(** *** One criterion *)

Ltac run_m :=
  unfold bind, ret, raise, throw, do_call, subscript, register_module,
    write_item, load_failure in *; simpl in *.

Section Criterion.

Variables (participant_id stack_name : string).
Variable check_functions : pymodule.
Variable assumed_credentials : credentials.

Abbreviation execute f :=
  (execute_check_function f participant_id stack_name assumed_credentials).
Abbreviation check := (check_criterion participant_id stack_name check_functions
                     assumed_credentials).
Abbreviation failure := (routine_failure participant_id stack_name check_functions
                       assumed_credentials).
Abbreviation loop := (run_criteria participant_id stack_name check_functions
                    assumed_credentials).
Abbreviation state_at criteria st :=
  (state_after participant_id stack_name check_functions assumed_credentials
     criteria st).

Lemma execute_same_store f st r st' :
  execute f st = (r, st') -> same_store st st'.
Proof.
  unfold execute_check_function. cbv zeta.
  destruct (completes _) as [v|t]; [|by intros [= <- <-]].
  destruct v as [| | | | |d]; try by intros [= <- <-].
  destruct (dict_get "implemented" d); by intros [= <- <-].
Qed.

Lemma check_criterion_same_store criterion st r st' :
  check criterion st = (r, st') -> same_store st st'.
Proof.
  unfold check_criterion.
  destruct (crit_checkFunction criterion) as [fname|];
    [|by intros [= <- <-]].
  destruct (check_functions !! fname) as [f|]; [|by intros [= <- <-]].
  destruct (execute f st) as [[[e|x]|result] st1] eqn:Hexec;
    intros [= <- <-]; eapply execute_same_store; eauto.
Qed.

(** The three shapes an appended entry can have. *)
Lemma check_criterion_entry criterion st entry st' :
  check criterion st = (inr entry, st') ->
  criterionId entry = crit_id criterion
  /\ name entry = crit_name criterion
  /\ maxPoints entry = criterion_points criterion
  /\ points entry
     = (if truthy (implemented entry) then criterion_points criterion else 0).
Proof.
  unfold check_criterion, criterion_points.
  destruct (crit_checkFunction criterion) as [fname|]; [|discriminate].
  destruct (check_functions !! fname) as [f|].
  - destruct (execute f st) as [[[e|x]|result] st1];
      intros [= <- <-]; simpl; auto.
  - intros [= <- <-]; simpl; auto.
Qed.

(** What leaves the loop body: the [TypeError] of a criterion that names
    no check function, or what a check function threw that does not derive
    from [Exception]. *)
Lemma check_criterion_thrown criterion st t st' :
  check criterion st = (inl t, st') ->
  (crit_checkFunction criterion = None
   /\ t = Exc (Exn TypeError "attribute name must be string, not 'NoneType'"))
  \/ exists fname (f : routine) class_name,
       crit_checkFunction criterion = Some fname
       /\ check_functions !! fname = Some f
       /\ t = Exit class_name
       /\ let run :=
            f participant_id stack_name assumed_credentials (module_vars st) in
          (completes (undisturbed run) = Raises (Exit class_name)
           \/ completes (interrupted run) = Raises (Exit class_name)).
Proof.
  unfold check_criterion.
  destruct (crit_checkFunction criterion) as [fname|];
    [|intros [= <- <-]; by left].
  destruct (check_functions !! fname) as [f|] eqn:Hf; [|discriminate].
  destruct (execute f st) as [[[e|x]|result] st1] eqn:Hexec; try discriminate.
  intros [= <- <-]. right. exists fname, f, x.
  split; [done|]. split; [done|]. split; [done|]. cbv zeta.
  revert Hexec. unfold execute_check_function. cbv zeta.
  destruct (alarm_seconds * 1000 <=? _).
  - destruct (completes (interrupted _)) as [v|t] eqn:Hend.
    + destruct v as [| | | | |d]; try discriminate.
      destruct (dict_get "implemented" d); discriminate.
    + intros [= -> _]. by right.
  - destruct (completes (undisturbed _)) as [v|t] eqn:Hend.
    + destruct v as [| | | | |d]; try discriminate.
      destruct (dict_get "implemented" d); discriminate.
    + intros [= -> _]. by left.
Qed.

Lemma check_criterion_total criterion st :
  is_Some (crit_checkFunction criterion) ->
  raises_errors_only check_functions ->
  exists entry st', check criterion st = (inr entry, st').
Proof.
  intros [fname Hname] Hsafe.
  destruct (check criterion st) as [[t|entry] st'] eqn:Hcheck; [|eauto].
  destruct (check_criterion_thrown _ _ _ _ Hcheck)
    as [[Hnone _]|(fname' & f & x & _ & Hf & _ & Hends)]; [congruence|].
  destruct (Hsafe fname' f participant_id stack_name assumed_credentials
              (module_vars st) x Hf) as [Hu Hi].
  cbv zeta in Hends. tauto.
Qed.

(** A routine that fails leaves the failure entry with the error's text,
    and nothing leaves the loop body. *)
Lemma check_criterion_failure criterion st :
  failure (module_vars st) criterion ->
  exists message st',
    check criterion st = (inr (failed_entry criterion message), st').
Proof.
  unfold check_criterion, failed_entry, criterion_points.
  intros [fname Hname Hmiss | fname f e Hname Hf Hquick Hraise
         | fname f e Hname Hf Hlate Hraise];
    rewrite Hname.
  - rewrite Hmiss. eexists _, _. reflexivity.
  - rewrite Hf. unfold execute_check_function. cbv zeta.
    apply Z.leb_gt in Hquick. rewrite Hquick, Hraise.
    eexists _, _. reflexivity.
  - rewrite Hf. unfold execute_check_function. cbv zeta.
    apply Z.leb_le in Hlate. rewrite Hlate, Hraise.
    eexists _, _. reflexivity.
Qed.

(** *** The loop *)

Lemma run_criteria_entries criteria results st final st' :
  loop criteria results st = (inr final, st') ->
  st' = state_at criteria st
  /\ exists entries,
       final = results ++ entries
       /\ Forall2 (fun criterion entry =>
                     exists s s', check criterion s = (inr entry, s'))
                  criteria entries.
Proof.
  revert results st. induction criteria as [|criterion rest IH];
    intros results st; simpl.
  - intros [= <- <-]. split; [done|]. exists [].
    split; [by rewrite app_nil_r | constructor].
  - unfold bind at 1.
    destruct (check criterion st) as [[t|entry] st1] eqn:Hentry;
      [discriminate|].
    intros Hloop. destruct (IH _ _ Hloop) as (-> & entries & -> & Hall).
    split; [done|].
    exists (entry :: entries). split.
    + by rewrite <- app_assoc.
    + constructor; eauto.
Qed.

(** The outcome at a criterion's place is what the loop body gave for it,
    in the state the criteria before it left. *)
Lemma run_criteria_lookup criteria results st final st' i criterion :
  loop criteria results st = (inr final, st') ->
  criteria !! i = Some criterion ->
  exists outcome,
    final !! (length results + i)%nat = Some outcome
    /\ check criterion (state_at (take i criteria) st)
       = (inr outcome, state_at (take (S i) criteria) st).
Proof.
  revert results st i. induction criteria as [|c rest IH];
    intros results st i; [done|].
  simpl. unfold bind at 1.
  destruct (check c st) as [[t|entry] st1] eqn:Hentry; [discriminate|].
  intros Hloop Hi. destruct i as [|j].
  - injection Hi as <-.
    destruct (run_criteria_entries _ _ _ _ _ Hloop) as (_ & entries & -> & _).
    exists entry. split.
    + rewrite <- app_assoc, Nat.add_0_r. simpl.
      by rewrite lookup_app_r, Nat.sub_diag.
    + simpl. by rewrite Hentry.
  - simpl in Hi. destruct (IH _ _ _ Hloop Hi) as (outcome & Hout & Hcheck).
    exists outcome. split.
    + rewrite length_app in Hout. simpl in Hout.
      by replace (length results + S j)%nat
        with (length results + 1 + j)%nat by lia.
    + simpl. by rewrite Hentry.
Qed.

Lemma run_criteria_total criteria results st :
  Forall (fun criterion => is_Some (crit_checkFunction criterion)) criteria ->
  raises_errors_only check_functions ->
  exists final st', loop criteria results st = (inr final, st').
Proof.
  intros Hnamed Hsafe. revert results st.
  induction Hnamed as [|criterion rest Hname _ IH]; intros results st; simpl.
  - unfold ret. eauto.
  - unfold bind at 1.
    destruct (check_criterion_total _ st Hname Hsafe) as (entry & st1 & ->).
    apply IH.
Qed.

Lemma run_criteria_same_store criteria results st r st' :
  loop criteria results st = (r, st') -> same_store st st'.
Proof.
  revert results st. induction criteria as [|criterion rest IH];
    intros results st; simpl.
  - by intros [= <- <-].
  - unfold bind at 1.
    destruct (check criterion st) as [[t|entry] st1] eqn:Hentry.
    + intros [= <- <-]. eapply check_criterion_same_store; eauto.
    + intros Hloop.
      destruct (check_criterion_same_store _ _ _ _ Hentry) as (? & ? & ?).
      destruct (IH _ _ Hloop) as (? & ? & ?).
      repeat split; congruence.
Qed.

End Criterion.

(** *** The stages before evaluation *)

Lemma nothing_persisted_refl st : nothing_persisted st st.
Proof.
  split; [done|]. exists []. split; [by rewrite app_nil_r | constructor].
Qed.

Lemma nothing_persisted_trans st1 st2 st3 :
  nothing_persisted st1 st2 -> nothing_persisted st2 st3 ->
  nothing_persisted st1 st3.
Proof.
  intros [Ht1 (m1 & Hc1 & Hm1)] [Ht2 (m2 & Hc2 & Hm2)]. split.
  - congruence.
  - exists (m1 ++ m2). split.
    + rewrite Hc2, Hc1. by rewrite <- app_assoc.
    + by apply Forall_app.
Qed.

Lemma nothing_persisted_log c st :
  is_put_item c = false -> nothing_persisted st (log_call c st).
Proof.
  intros Hc. split; [done|]. exists [c]. split; [done|]. by constructor.
Qed.

Lemma same_store_quiet st st' : same_store st st' -> nothing_persisted st st'.
Proof.
  intros (_ & Htable & Hcalls). split; [done|].
  exists []. split; [by rewrite app_nil_r | constructor].
Qed.

Lemma load_challenge_config_quiet w challenge_id st r st' :
  load_challenge_config w challenge_id st = (r, st') ->
  nothing_persisted st st'.
Proof.
  unfold load_challenge_config. run_m.
  destruct (get_item w _ challenge_id) as [e|[challenge|]];
    repeat case_match; intros [= <- <-];
    by apply nothing_persisted_log.
Qed.

Lemma load_check_functions_quiet w s3_location check_functions_file st r st' :
  load_check_functions_from_s3 w s3_location check_functions_file st
  = (r, st') ->
  nothing_persisted st st'.
Proof.
  unfold load_check_functions_from_s3. run_m.
  destruct (get_object w _ _) as [e|[e|namespace [[e|x]|]]];
    repeat case_match; intros [= <- <-];
    try by apply nothing_persisted_log.
  all: split; [done|]; simpl; eexists [_]; split; [done|]; by constructor.
Qed.

Lemma assume_assessment_role_quiet w account_id st r st' :
  assume_assessment_role w account_id st = (r, st') ->
  nothing_persisted st st'.
Proof.
  unfold assume_assessment_role. run_m.
  destruct (assume_role w _ _) as [e|key secret token];
    repeat case_match; intros [= <- <-];
    by apply nothing_persisted_log.
Qed.

Lemma run_assessment_same_store pid cfg m creds st r st' :
  run_assessment pid cfg m creds st = (r, st') -> same_store st st'.
Proof. apply run_criteria_same_store. Qed.

Lemma names_truthy event participant_id challenge_id :
  names event participant_id challenge_id ->
  negb (str_truthy (participantId event))
  || negb (str_truthy (challengeId event)) = false
  /\ get_or (participantId event) "" = participant_id
  /\ get_or (challengeId event) "" = challenge_id.
Proof.
  intros (-> & Hp & -> & Hc). simpl.
  apply String.eqb_neq in Hp, Hc. by rewrite Hp, Hc.
Qed.

Lemma truthy_names event :
  negb (str_truthy (participantId event))
  || negb (str_truthy (challengeId event)) = false ->
  exists participant_id challenge_id,
    names event participant_id challenge_id.
Proof.
  unfold names, str_truthy.
  destruct (participantId event) as [pid|], (challengeId event) as [cid|];
    simpl; try discriminate.
  - destruct (String.eqb_spec pid ""), (String.eqb_spec cid "");
      simpl; try discriminate. eauto 10.
  - destruct (String.eqb pid ""); discriminate.
Qed.

(** What the handler does once the three stages are through: the
    evaluation, then the write, then the metrics. *)
Lemma lambda_handler_evaluates w event st pid cid cfg m creds st3 :
  reaches_evaluation w event st pid cid cfg m creds st3 ->
  lambda_handler w event st =
  match run_assessment pid cfg m creds st3 with
  | (inl (Exc e), st4) =>
      (inl (Exc e), log_call (CallPutMetricData (AssessmentErrors cid)) st4)
  | (inl (Exit class_name), st4) => (inl (Exit class_name), st4)
  | (inr assessment_results, st4) =>
      let item := item_of w event pid cid cfg assessment_results in
      let st5 := log_call (CallPutItem (results_table_name w) item) st4 in
      match put_item w (results_table_name w) item with
      | PutRaises e =>
          (inl (Exc (if is_client_error e
                     then Exn Exception
                            ("Failed to store assessment results: " +:+ str e)
                     else e)),
           log_call (CallPutMetricData (AssessmentErrors cid)) st5)
      | PutOk =>
          (inr (result_of event pid cid cfg assessment_results),
           log_call
             (CallPutMetricData
                (AssessmentMetrics cid (item_score item) (item_passed item)))
             (snd (write_item item st5)))
      end
  end.
Proof.
  intros Hreach. unfold lambda_handler, lambda_handler_try.
  destruct Hreach as
    [pid cid cfg st1 loc file m st2 creds st3 Hnames Hcfg Hloc Hfile Hload
       Hrole].
  destruct (names_truthy _ _ _ Hnames) as (-> & -> & ->).
  assert (get_or (challengeId event) "unknown" = cid) as ->.
  { destruct Hnames as (_ & _ & -> & _). done. }
  unfold bind at 1; rewrite Hcfg.
  rewrite Hloc, Hfile. run_m. rewrite Hload.
  unfold team_account in Hrole. rewrite Hrole.
  destruct (run_assessment pid cfg m creds st3) as [[[e|x]|rs] st4];
    [done|done|].
  unfold store_assessment_results, record_assessment_metrics,
    results_table_name, item_of, result_of. run_m.
  destruct (put_item w _ _) as [e|]; [|done].
  by destruct (is_client_error e).
Qed.

(** A run that returns a result went through the three stages, and the
    result is built from what the evaluation gave. *)
Lemma lambda_handler_returns w event st result st' :
  lambda_handler w event st = (inr result, st') ->
  exists pid cid cfg m creds st3 assessment_results st4,
    reaches_evaluation w event st pid cid cfg m creds st3
    /\ run_assessment pid cfg m creds st3 = (inr assessment_results, st4)
    /\ put_item w (results_table_name w)
         (item_of w event pid cid cfg assessment_results) = PutOk
    /\ result = result_of event pid cid cfg assessment_results.
Proof.
  intros Hrun.
  assert (exists pid cid cfg m creds st3,
             reaches_evaluation w event st pid cid cfg m creds st3)
    as (pid & cid & cfg & m & creds & st3 & Hreach).
  { revert Hrun. unfold lambda_handler, lambda_handler_try.
    destruct (negb _ || negb _) eqn:Htest; [discriminate|].
    destruct (truthy_names _ Htest) as (pid & cid & Hnames).
    destruct (names_truthy _ _ _ Hnames) as (_ & -> & ->).
    unfold bind at 1.
    destruct (load_challenge_config w cid st) as [[[e|x]|cfg] st1] eqn:Hcfg;
      [discriminate|discriminate|].
    destruct (s3Location cfg) as [loc|] eqn:Hloc; [|discriminate].
    destruct (checkFunctionsFile cfg) as [file|] eqn:Hfile; [|discriminate].
    run_m.
    destruct (load_check_functions_from_s3 w loc file st1)
      as [[[e|x]|m] st2] eqn:Hload; [discriminate|discriminate|].
    destruct (assume_assessment_role w _ st2) as [[[e|x]|creds] st3] eqn:Hrole;
      [discriminate|discriminate|].
    intros _. exists pid, cid, cfg, m, creds, st3.
    econstructor; eauto. }
  rewrite (lambda_handler_evaluates _ _ _ _ _ _ _ _ _ Hreach) in Hrun.
  destruct (run_assessment pid cfg m creds st3) as [[[e|x]|rs] st4] eqn:Hrs;
    [discriminate|discriminate|].
  cbv zeta in Hrun.
  destruct (put_item w _ _) eqn:Hput; [discriminate|].
  injection Hrun as <- _. eauto 14.
Qed.

Lemma reaches_evaluation_quiet w event st pid cid cfg m creds st3 :
  reaches_evaluation w event st pid cid cfg m creds st3 ->
  nothing_persisted st st3.
Proof.
  intros [].
  eapply nothing_persisted_trans;
    [eapply load_challenge_config_quiet; eauto|].
  eapply nothing_persisted_trans;
    [eapply load_check_functions_quiet; eauto
    |eapply assume_assessment_role_quiet; eauto].
Qed.

(** A completed run, read back: its result is built from the evaluation
    of the definition it resolved. *)
Lemma completed_run w event st pid cid cfg m creds st3 result st' :
  reaches_evaluation w event st pid cid cfg m creds st3 ->
  lambda_handler w event st = (inr result, st') ->
  exists assessment_results st4,
    run_assessment pid cfg m creds st3 = (inr assessment_results, st4)
    /\ result = result_of event pid cid cfg assessment_results.
Proof.
  intros Hreach Hrun.
  rewrite (lambda_handler_evaluates _ _ _ _ _ _ _ _ _ Hreach) in Hrun.
  destruct (run_assessment pid cfg m creds st3) as [[[e|x]|rs] st4];
    [discriminate|discriminate|].
  cbv zeta in Hrun. destruct (put_item w _ _); [discriminate|].
  injection Hrun as <- _. eauto.
Qed.

Lemma run_assessment_entries pid cfg m creds st assessment_results st' :
  run_assessment pid cfg m creds st = (inr assessment_results, st') ->
  Forall2 (fun criterion entry =>
             exists s s',
               check_criterion pid (stack_name_of cfg pid) m creds criterion s
               = (inr entry, s'))
          (criteria_of cfg) assessment_results.
Proof.
  unfold run_assessment. intros Hrun.
  destruct (run_criteria_entries _ _ _ _ _ _ _ _ _ Hrun)
    as (_ & entries & Heq & Hall).
  simpl in Heq. by subst.
Qed.

(** *** The stages, from what the services answer *)

Lemma resolves_config w cid cfg loc file st :
  resolves w cid cfg loc file ->
  load_challenge_config w cid st
  = (inr cfg, log_call (CallGetItem (registry_table_name w) cid) st).
Proof.
  intros (Hitem & Hactive & _). unfold load_challenge_config. run_m.
  unfold registry_table_name in Hitem. rewrite Hitem.
  by destruct Hactive as [-> | ->].
Qed.

Lemma loads_module w loc file m st :
  loads w loc file m ->
  exists st2,
    load_check_functions_from_s3 w loc file st = (inr m, st2).
Proof.
  unfold loads, bundle_bucket, bundle_key, load_check_functions_from_s3.
  intros Hobject. run_m. rewrite Hobject. eauto.
Qed.

Lemma oracles_reach_evaluation
    w event st pid cid cfg loc file m key secret token :
  names event pid cid ->
  resolves w cid cfg loc file ->
  loads w loc file m ->
  assume_role w (role_arn (team_account w event)) (external_id w)
  = AssumeRoleResponse key secret token ->
  exists st3,
    reaches_evaluation w event st pid cid cfg m
      {| aws_access_key_id := key;
         aws_secret_access_key := secret;
         aws_session_token := token |}
      st3.
Proof.
  intros Hnames Hcfg Hload Hrole.
  pose proof (resolves_config _ _ _ _ _ st Hcfg) as Hconfig.
  destruct Hcfg as (_ & _ & Hloc & Hfile).
  destruct (loads_module _ _ _ _
              (log_call (CallGetItem (registry_table_name w) cid) st) Hload)
    as (st2 & Hmodule).
  eexists. eapply (reaches _ _ _ pid cid cfg _ loc file m st2); eauto.
  unfold assume_assessment_role. run_m.
  unfold role_arn, external_id in Hrole. rewrite Hrole. reflexivity.
Qed.

(** What was thrown in one of the three stages leaves the [try] block as
    it is. *)
Lemma try_fails_resolving w event st pid cid t st1 :
  names event pid cid ->
  load_challenge_config w cid st = (inl t, st1) ->
  lambda_handler_try w event st = (inl t, st1).
Proof.
  intros Hnames Hcfg. unfold lambda_handler_try.
  destruct (names_truthy _ _ _ Hnames) as (-> & _ & ->).
  unfold bind at 1. by rewrite Hcfg.
Qed.

Lemma try_fails_loading w event st pid cid cfg loc file st1 t st2 :
  names event pid cid ->
  resolves w cid cfg loc file ->
  st1 = log_call (CallGetItem (registry_table_name w) cid) st ->
  load_check_functions_from_s3 w loc file st1 = (inl t, st2) ->
  lambda_handler_try w event st = (inl t, st2).
Proof.
  intros Hnames Hcfg -> Hload. unfold lambda_handler_try.
  destruct (names_truthy _ _ _ Hnames) as (-> & _ & ->).
  unfold bind at 1. rewrite (resolves_config _ _ _ _ _ st Hcfg).
  destruct Hcfg as (_ & _ & -> & ->). run_m. by rewrite Hload.
Qed.

Lemma try_fails_authorizing w event st pid cid cfg loc file st1 m st2 t st3 :
  names event pid cid ->
  resolves w cid cfg loc file ->
  st1 = log_call (CallGetItem (registry_table_name w) cid) st ->
  load_check_functions_from_s3 w loc file st1 = (inr m, st2) ->
  assume_assessment_role w (team_account w event) st2 = (inl t, st3) ->
  lambda_handler_try w event st = (inl t, st3).
Proof.
  intros Hnames Hcfg -> Hload Hrole. unfold lambda_handler_try.
  destruct (names_truthy _ _ _ Hnames) as (-> & _ & ->).
  unfold bind at 1. rewrite (resolves_config _ _ _ _ _ st Hcfg).
  destruct Hcfg as (_ & _ & -> & ->). run_m. rewrite Hload.
  unfold team_account in Hrole. by rewrite Hrole.
Qed.

(** The [except] clause of the handler: what left the [try] block leaves
    the handler, after the error metric when it derives from
    [Exception]. *)
Lemma handler_raises w event st t st1 :
  lambda_handler_try w event st = (inl t, st1) ->
  nothing_persisted st st1 ->
  exists st',
    lambda_handler w event st = (inl t, st') /\ nothing_persisted st st'.
Proof.
  intros Htry Hquiet. unfold lambda_handler. rewrite Htry.
  destruct t as [e|x]; (eexists; split; [reflexivity|]); [|done].
  eapply nothing_persisted_trans;
    [exact Hquiet | by apply nothing_persisted_log].
Qed.

(** The three stages, failing as the service fails. *)
Lemma registry_failure w cid st e :
  get_item w (registry_table_name w) cid = GetItemRaises e ->
  load_challenge_config w cid st
  = (inl (Exc (if is_client_error e
               then Exn Exception
                      ("Failed to load challenge configuration: " +:+ str e)
               else e)),
     log_call (CallGetItem (registry_table_name w) cid) st).
Proof.
  intros Hitem. unfold load_challenge_config. run_m.
  unfold registry_table_name in Hitem. rewrite Hitem.
  by destruct (is_client_error e).
Qed.

Lemma registry_empty w cid st :
  get_item w (registry_table_name w) cid = GetItemResponse None ->
  load_challenge_config w cid st
  = (inl (Exc (Exn Exception ("Challenge not found: " +:+ cid))),
     log_call (CallGetItem (registry_table_name w) cid) st).
Proof.
  intros Hitem. unfold load_challenge_config. run_m.
  unfold registry_table_name in Hitem. by rewrite Hitem.
Qed.

Lemma eq_str_true v s : eq_str v s = true <-> v = PStr s.
Proof.
  destruct v; simpl; try (split; [discriminate | intros [=]]).
  rewrite String.eqb_eq. split; [by intros -> | by intros [=]].
Qed.

Lemma active_test cfg :
  eq_str (get_or (active cfg) (PStr "true")) "true" = true
  <-> active cfg = None \/ active cfg = Some (PStr "true").
Proof.
  rewrite eq_str_true. destruct (active cfg) as [v|]; simpl.
  - split; [intros ->; by right | intros [[=]|[=]]; done].
  - split; [by left | done].
Qed.

Lemma registry_inactive w cid st cfg :
  get_item w (registry_table_name w) cid = GetItemResponse (Some cfg) ->
  ~ (active cfg = None \/ active cfg = Some (PStr "true")) ->
  load_challenge_config w cid st
  = (inl (Exc (Exn Exception ("Challenge is not active: " +:+ cid))),
     log_call (CallGetItem (registry_table_name w) cid) st).
Proof.
  intros Hitem Hflag. unfold load_challenge_config. run_m.
  unfold registry_table_name in Hitem. rewrite Hitem.
  rewrite <- active_test in Hflag. apply not_true_is_false in Hflag.
  by rewrite Hflag.
Qed.

Lemma bundle_failure w loc file st t :
  bundle_error (get_object w (bundle_bucket loc) (bundle_key loc file))
  = Some t ->
  exists st2,
    load_check_functions_from_s3 w loc file st
    = (inl match t with
           | Exc e =>
               Exc (Exn Exception
                      ((if is_client_error e
                        then "Failed to load check functions from S3: "
                        else "Failed to load check functions: ")
                       +:+ str e))
           | Exit class_name => Exit class_name
           end,
       st2).
Proof.
  unfold bundle_bucket, bundle_key, load_check_functions_from_s3.
  intros Hbundle. run_m.
  destruct (get_object w _ _) as [e|[e|namespace exec_error]];
    simpl in Hbundle.
  - injection Hbundle as <-. destruct (is_client_error e); eauto.
  - injection Hbundle as <-. destruct (is_client_error e); eauto.
  - subst exec_error. destruct t as [e|x]; [|eauto].
    destruct (is_client_error e); eauto.
Qed.

Lemma broker_failure w account st e :
  assume_role w (role_arn account) (external_id w) = AssumeRoleRaises e ->
  assume_assessment_role w account st
  = (inl (Exc (if is_client_error e
               then Exn Exception
                      ("Failed to assume role in participant account: "
                       +:+ str e)
               else e)),
     log_call (CallAssumeRole (role_arn account) (external_id w)) st).
Proof.
  intros Hrole. unfold assume_assessment_role. run_m.
  unfold role_arn, external_id in Hrole. rewrite Hrole.
  by destruct (is_client_error e).
Qed.

(** *** Scores *)

Section Scores.

Variables (participant_id stack_name : string).
Variable check_functions : pymodule.
Variable assumed_credentials : credentials.

Lemma entries_score criteria entries :
  Forall2 (fun criterion entry =>
             exists s s',
               check_criterion participant_id stack_name check_functions
                 assumed_credentials criterion s = (inr entry, s'))
          criteria entries ->
  sum (map points entries) = implemented_points criteria entries
  /\ map maxPoints entries = map criterion_points criteria
  /\ map criterionId entries = map crit_id criteria.
Proof.
  induction 1 as [|criterion entry criteria entries (s & s' & Hentry) _ IH];
    [done|].
  destruct IH as (IHsum & IHmax & IHid).
  destruct (check_criterion_entry _ _ _ _ _ _ _ _ Hentry)
    as (Hid & _ & Hmax & Hpoints).
  simpl. rewrite sum_cons, IHsum, IHmax, IHid, Hpoints, Hmax, Hid. done.
Qed.

End Scores.

Lemma implemented_points_le criteria entries :
  Forall (fun criterion => 0 <= criterion_points criterion) criteria ->
  implemented_points criteria entries <= sum (map criterion_points criteria).
Proof.
  intros Hpos. revert entries.
  induction Hpos as [|criterion criteria Hc _ IH]; intros entries.
  - by destruct entries.
  - simpl. rewrite sum_cons. destruct entries as [|entry entries].
    + specialize (IH []).
      assert (implemented_points criteria [] = 0) as Hnil
        by (by destruct criteria).
      lia.
    + specialize (IH entries). destruct (truthy (implemented entry)); lia.
Qed.

(** ** The claims about the engine *)

(** C1.  For every completed assessment run, the total score of the
    returned result is the sum of the point values of exactly those criteria
    whose outcome tests true on [implemented] (criteria and outcomes being
    paired in order), the maximum score is the sum of all the criteria's
    point values, and, the point values being non-negative as the data
    model has them, the total is at most the maximum. *)
Theorem score_is_sum_of_implemented_points
    w event st pid cid cfg m creds st3 result st' :
  reaches_evaluation w event st pid cid cfg m creds st3 ->
  lambda_handler w event st = (inr result, st') ->
  length (results result) = length (criteria_of cfg)
  /\ score result = implemented_points (criteria_of cfg) (results result)
  /\ maxScore result = sum (map criterion_points (criteria_of cfg))
  /\ (Forall (fun criterion => 0 <= criterion_points criterion)
             (criteria_of cfg) ->
      score result <= maxScore result).
Proof.
  intros Hreach Hrun.
  destruct (completed_run _ _ _ _ _ _ _ _ _ _ _ Hreach Hrun)
    as (rs & st4 & Hrs & ->).
  apply run_assessment_entries in Hrs.
  destruct (entries_score _ _ _ _ _ _ Hrs) as (Hsum & _ & _).
  simpl. unfold calculate_score, calculate_max_score.
  repeat split.
  - symmetry. eapply Forall2_length; eauto.
  - done.
  - intros Hpos. rewrite Hsum. by apply implemented_points_le.
Qed.



(** *** The sample runs *)

Import Samples MoreSamples.

Lemma request_names : names request alice voting.
Proof. repeat split; discriminate. Qed.

Lemma sample_reaches_evaluation cfg m :
  eq_str (get_or (active cfg) (PStr "true")) "true" = true ->
  s3Location cfg = s3Location definition ->
  checkFunctionsFile cfg = checkFunctionsFile definition ->
  reaches_evaluation (world cfg (BodySource m None)) request fresh
    alice voting cfg m creds (authorized m).
Proof.
  intros Hactive Hloc Hfile.
  eapply (reaches _ _ _ alice voting cfg _ _ _ m _ creds).
  - exact request_names.
  - unfold load_challenge_config; run_m. rewrite Hactive. reflexivity.
  - rewrite Hloc. reflexivity.
  - rewrite Hfile. reflexivity.
  - reflexivity.
  - reflexivity.
Qed.

Lemma definition_resolves :
  resolves healthy voting definition
    "s3://ctf-challenges/voting-system/" "check-functions.py".
Proof. repeat split. by right. Qed.

Lemma definition_names_routines : names_routines definition.
Proof. repeat constructor; eauto. Qed.

Lemma faulty_bundle_raises_errors_only : raises_errors_only faulty_bundle.
Proof.
  intros fname f pid stack creds vars x Hf. unfold faulty_bundle in Hf.
  apply lookup_insert_Some in Hf as [[_ <-]|[_ Hf]]; [by split|].
  apply lookup_singleton_Some in Hf as [_ <-]. by split.
Qed.

Lemma score_is_sum_of_implemented_points_witness :
  length (results verdict) = length (criteria_of definition)
  /\ score verdict = implemented_points (criteria_of definition) (results verdict)
  /\ maxScore verdict = sum (map criterion_points (criteria_of definition))
  /\ (Forall (fun criterion => 0 <= criterion_points criterion)
             (criteria_of definition) ->
      score verdict <= maxScore verdict).
Proof.
  apply (score_is_sum_of_implemented_points healthy request fresh
           alice voting definition bundle creds (authorized bundle) verdict
           (snd (lambda_handler healthy request fresh))).
  - apply sample_reaches_evaluation; reflexivity.
  - vm_compute. reflexivity.
Defined.

Lemma faulty_run :
  lambda_handler (world definition (BodySource faulty_bundle None))
    request fresh
  = (inr (result_of request alice voting definition faulty_entries),
     snd (lambda_handler (world definition (BodySource faulty_bundle None))
            request fresh)).
Proof. vm_compute. reflexivity. Qed.





(** C4, as the code has it.  Once the score is computed, a failure of the
    write to the results table fails the run: the caller receives the
    store's error (a [ClientError] wrapped as "Failed to store assessment
    results: ...", anything else as it is) in place of the result, and the
    results table is left as it was. *)
Theorem store_failure_fails_the_run
    w event st pid cid cfg m creds st3 assessment_results st4 e :
  reaches_evaluation w event st pid cid cfg m creds st3 ->
  run_assessment pid cfg m creds st3 = (inr assessment_results, st4) ->
  put_item w (results_table_name w)
    (item_of w event pid cid cfg assessment_results) = PutRaises e ->
  exists st',
    lambda_handler w event st
    = (inl (Exc (if is_client_error e
                 then Exn Exception
                        ("Failed to store assessment results: " +:+ str e)
                 else e)),
       st')
    /\ results_table st' = results_table st.
Proof.
  intros Hreach Hrs Hput.
  rewrite (lambda_handler_evaluates _ _ _ _ _ _ _ _ _ Hreach), Hrs.
  cbv zeta. rewrite Hput. eexists; split; [reflexivity|].
  simpl.
  destruct (run_assessment_same_store _ _ _ _ _ _ _ Hrs) as (_ & -> & _).
  by destruct (reaches_evaluation_quiet _ _ _ _ _ _ _ _ _ Hreach).
Qed.

Lemma store_failure_fails_the_run_witness :
  exists st',
    lambda_handler store_down request fresh
    = (inl (Exc (Exn Exception
                   "Failed to store assessment results: ProvisionedThroughputExceededException")),
       st')
    /\ results_table st' = results_table fresh.
Proof.
  apply (store_failure_fails_the_run store_down request fresh alice voting
           definition bundle creds (authorized bundle) entries
           (snd (run_assessment alice definition bundle creds
                   (authorized bundle)))
           throttled).
  - eapply (reaches _ _ _ alice voting definition);
      first [exact request_names | reflexivity].
  - vm_compute. reflexivity.
  - reflexivity.
Defined.

(** C4 as stated fails: the score of this run is computed (10 points), the
    write is refused, and the caller gets the store's error, not the
    result. *)
Lemma store_failure_loses_the_result :
  fst (run_assessment alice definition bundle creds (authorized bundle))
  = inr entries
  /\ calculate_score entries = 10
  /\ fst (lambda_handler store_down request fresh)
     = inl (Exc (Exn Exception
                   "Failed to store assessment results: ProvisionedThroughputExceededException")).
Proof. repeat split. Qed.

(** C5, as the code has it.  A value returned before the alarm is checked
    for being a dict that holds the key ['implemented'], and for nothing
    else: a value that is not a dict, or a dict without the key, gives an
    outcome with [implemented] false, no points, and an error naming the
    violation; a dict with the key gives an outcome that carries the stored
    value as it is, of whatever type, with no error, and with the
    criterion's points exactly when that value tests true.  The alarm is
    disarmed by then. *)
Theorem returned_value_is_checked_for_the_key_only
    pid stack (m : pymodule) creds criterion fname (f : routine) v st :
  crit_checkFunction criterion = Some fname ->
  m !! fname = Some f ->
  elapsed_ms (f pid stack creds (module_vars st)) < alarm_seconds * 1000 ->
  completes (undisturbed (f pid stack creds (module_vars st))) = Returns v ->
  check_criterion pid stack m creds criterion st
  = (inr match v with
         | PDict d =>
             match dict_get "implemented" d with
             | Some verdict =>
                 {| criterionId := crit_id criterion;
                    name := crit_name criterion;
                    points := if truthy verdict
                              then criterion_points criterion else 0;
                    maxPoints := criterion_points criterion;
                    implemented := verdict;
                    details := Some (get_or (dict_get "details" d) (PDict []));
                    error := None |}
             | None =>
                 failed_entry criterion
                   "Check function result must include 'implemented' key"
             end
         | _ => failed_entry criterion "Check function must return a dictionary"
         end,
     after_call (leaves (undisturbed (f pid stack creds (module_vars st))))
       None st).
Proof.
  intros Hname Hf Hquick Hret.
  unfold check_criterion, execute_check_function. rewrite Hname, Hf.
  cbv zeta. apply Z.leb_gt in Hquick. rewrite Hquick, Hret.
  destruct v as [| | | | |d]; try reflexivity.
  destruct (dict_get "implemented" d) as [verdict|] eqn:Hverdict;
    [|reflexivity].
  cbv zeta. by rewrite Hverdict.
Qed.

Lemma returned_value_is_checked_for_the_key_only_witness :
  check_criterion alice (stack_name_of definition alice) sloppy_bundle creds
    dlq (authorized sloppy_bundle)
  = (inr (failed_entry dlq
            "Check function result must include 'implemented' key"),
     authorized sloppy_bundle).
Proof.
  apply (returned_value_is_checked_for_the_key_only alice
           (stack_name_of definition alice) sloppy_bundle creds dlq
           "checkDLQ" (after 800 (Returns (PDict [("details", PDict [])])))
           (PDict [("details", PDict [])]) (authorized sloppy_bundle)).
  - reflexivity.
  - reflexivity.
  - reflexivity.
  - reflexivity.
Defined.

(** C5 as stated fails: [checkBackup] returns the string "yes" for
    [implemented]; the outcome carries the string, has no error, and takes
    the criterion's 10 points. *)
Lemma non_boolean_verdict_earns_points :
  fst (run_assessment alice definition sloppy_bundle creds
         (authorized sloppy_bundle))
  = inr sloppy_entries
  /\ is_bool (PStr "yes") = false
  /\ calculate_score sloppy_entries = 10.
Proof. repeat split. Qed.




(** *** Module names *)

(** Loads in different seconds do get different names. *)
Lemma module_name_inj t1 t2 :
  module_name t1 = module_name t2 -> Z.quot t1 1000 = Z.quot t2 1000.
Proof.
  unfold module_name. intros Heq.
  apply (inj pretty). cbn [String.append] in Heq. by injection Heq.
Qed.

(** C9 fails on the code.  The name of a loaded unit is the load time in
    whole seconds, so two loads within one second get one name: here the
    bundle of one run and, 650 ms later, the bundle of another are both
    named [check_functions_1700000000], and the second load replaces the
    first one's entry of [sys.modules]. *)
Theorem loads_in_one_second_share_a_name :
  let first_load :=
    load_check_functions_from_s3 healthy
      "s3://ctf-challenges/voting-system/" "check-functions.py" fresh in
  let second_load :=
    load_check_functions_from_s3 later_same_second
      "s3://ctf-challenges/throttling/" "check-functions.py"
      (snd first_load) in
  fst first_load = inr bundle
  /\ fst second_load = inr other_bundle
  /\ bundle <> other_bundle
  /\ module_name (time_at_load healthy)
     = module_name (time_at_load later_same_second)
  /\ sys_modules (snd first_load)
     = {[ "check_functions_1700000000" := bundle ]}
  /\ sys_modules (snd second_load)
     = {[ "check_functions_1700000000" := other_bundle ]}.
Proof.
  cbv zeta. repeat split.
  intros Heq.
  assert (bundle !! "checkBackup" = other_bundle !! "checkBackup") as Hl
    by (by rewrite Heq).
  vm_compute in Hl. discriminate.
Qed.

(** *** The active flag *)

Lemma aborted_resolving_calls w cid st :
  calls (aborted_resolving w cid st)
  = calls st ++ [CallGetItem (registry_table_name w) cid;
                 CallPutMetricData (AssessmentErrors cid)]
  /\ results_table (aborted_resolving w cid st) = results_table st
  /\ sys_modules (aborted_resolving w cid st) = sys_modules st.
Proof. simpl. by rewrite <- app_assoc. Qed.

(** C10.  The resolver takes a fetched registry record as active exactly
    when its [active] attribute is absent or is the string "true".  Any
    other stored value, the boolean [True] among them, makes the run fail
    with "Challenge is not active", and a record that does not exist makes
    it fail with "Challenge not found"; in both cases the run made two
    calls, the registry read and the error metric: no bundle was fetched,
    no role assumed, nothing written to the results table. *)
Theorem record_is_active_when_flag_absent_or_true w event st pid cid :
  names event pid cid ->
  (forall cfg,
      get_item w (registry_table_name w) cid = GetItemResponse (Some cfg) ->
      (fst (load_challenge_config w cid st) = inr cfg
       <-> active cfg = None \/ active cfg = Some (PStr "true"))
      /\ (~ (active cfg = None \/ active cfg = Some (PStr "true")) ->
          lambda_handler w event st
          = (inl (Exc (Exn Exception ("Challenge is not active: " +:+ cid))),
             aborted_resolving w cid st))
      /\ (active cfg = Some (PBool true) ->
          lambda_handler w event st
          = (inl (Exc (Exn Exception ("Challenge is not active: " +:+ cid))),
             aborted_resolving w cid st)))
  /\ (get_item w (registry_table_name w) cid = GetItemResponse None ->
      lambda_handler w event st
      = (inl (Exc (Exn Exception ("Challenge not found: " +:+ cid))),
         aborted_resolving w cid st))
  /\ calls (aborted_resolving w cid st)
     = calls st ++ [CallGetItem (registry_table_name w) cid;
                    CallPutMetricData (AssessmentErrors cid)]
  /\ results_table (aborted_resolving w cid st) = results_table st
  /\ sys_modules (aborted_resolving w cid st) = sys_modules st.
Proof.
  intros Hnames.
  assert (get_or (challengeId event) "unknown" = cid) as Hcid.
  { destruct Hnames as (_ & _ & -> & _). done. }
  destruct (names_truthy _ _ _ Hnames) as (Htest & Hpid & Hcid').
  assert (forall cfg,
             get_item w (registry_table_name w) cid
             = GetItemResponse (Some cfg) ->
             ~ (active cfg = None \/ active cfg = Some (PStr "true")) ->
             lambda_handler w event st
             = (inl (Exc (Exn Exception ("Challenge is not active: " +:+ cid))),
                aborted_resolving w cid st)) as Hinactive.
  { intros cfg Hitem Hflag.
    unfold lambda_handler, lambda_handler_try.
    rewrite Htest, Hcid, Hcid'. unfold bind at 1.
    unfold load_challenge_config. run_m.
    unfold registry_table_name in Hitem. rewrite Hitem.
    rewrite <- active_test in Hflag. apply not_true_is_false in Hflag.
    rewrite Hflag. reflexivity. }
  split; [|split; [|apply aborted_resolving_calls]].
  - intros cfg Hitem. split; [|split].
    + rewrite <- active_test.
      unfold load_challenge_config. run_m.
      unfold registry_table_name in Hitem. rewrite Hitem.
      destruct (eq_str _ "true"); simpl; split; (done || by intros [=]).
    + by apply Hinactive.
    + intros Hflag. apply (Hinactive cfg Hitem).
      rewrite Hflag. intros [[=]|[=]].
  - intros Hitem.
    unfold lambda_handler, lambda_handler_try.
    rewrite Htest, Hcid, Hcid'. unfold bind at 1.
    unfold load_challenge_config. run_m.
    unfold registry_table_name in Hitem. rewrite Hitem. reflexivity.
Qed.

Lemma record_is_active_when_flag_absent_or_true_witness :
  lambda_handler flagged request fresh
  = (inl (Exc (Exn Exception ("Challenge is not active: " +:+ voting))),
     aborted_resolving flagged voting fresh).
Proof.
  apply (proj2 (proj2 (proj1
           (record_is_active_when_flag_absent_or_true flagged request fresh
              alice voting request_names)
           (stored_active (Some (PBool true))) eq_refl))).
  reflexivity.
Defined.

End EngineFacts.

(** ** Facts about the trigger *)

Module TriggerFacts.

Import Trigger TriggerSamples.

(** *** [Set] *)

Lemma set_add_all_NoDup seen values :
  NoDup seen -> NoDup (set_add_all seen values).
Proof.
  revert seen. induction values as [|v rest IH]; intros seen Hseen; simpl.
  - done.
  - case_bool_decide as Hin; apply IH; [done|].
    apply NoDup_app. split; [done|]. split.
    + intros x Hx ->%list_elem_of_singleton. done.
    + apply NoDup_singleton.
Qed.

Lemma set_add_all_elem seen values x :
  x ∈ set_add_all seen values <-> x ∈ seen \/ x ∈ values.
Proof.
  revert seen. induction values as [|v rest IH]; intros seen; simpl.
  - rewrite elem_of_nil. tauto.
  - case_bool_decide as Hin; rewrite IH, elem_of_cons.
    + split; [tauto|]. intros [?|[->|?]]; tauto.
    + rewrite elem_of_app, list_elem_of_singleton. tauto.
Qed.

Lemma new_Set_NoDup values : NoDup (new_Set values).
Proof. apply set_add_all_NoDup, NoDup_nil_2. Qed.

Lemma new_Set_elem values x : x ∈ new_Set values <-> x ∈ values.
Proof.
  unfold new_Set. rewrite set_add_all_elem, elem_of_nil. tauto.
Qed.

(** *** The participants of an event *)

Lemma getParticipantsFromStacks_spec w :
  NoDup (fst (getParticipantsFromStacks w))
  /\ invoked (snd (getParticipantsFromStacks w)) = [].
Proof.
  unfold getParticipantsFromStacks. simpl. split; [|done].
  destruct (listStacks w); [apply NoDup_nil_2 | apply new_Set_NoDup].
Qed.

Lemma getActiveParticipants_spec w :
  NoDup (fst (getActiveParticipants w))
  /\ invoked (snd (getActiveParticipants w)) = [].
Proof.
  unfold getActiveParticipants.
  destruct (query w) as [message|Items].
  - destruct (getParticipantsFromStacks_spec w) as [Hids Hcalls].
    destruct (getParticipantsFromStacks w) as [ids calls]. simpl in *.
    done.
  - simpl. split; [apply new_Set_NoDup | done].
Qed.

Lemma extractParticipantIds_spec w event source :
  NoDup (fst (extractParticipantIds w event source))
  /\ invoked (snd (extractParticipantIds w event source)) = [].
Proof.
  unfold extractParticipantIds.
  repeat case_match; simpl;
    first [ apply getActiveParticipants_spec
          | split; [first [apply NoDup_nil_2 | apply NoDup_singleton] | done] ].
Qed.

(** *** The invocations *)

Lemma invoked_app calls1 calls2 :
  invoked (calls1 ++ calls2) = invoked calls1 ++ invoked calls2.
Proof. unfold invoked. apply omap_app. Qed.

Lemma invoked_triggers w source participantIds :
  invoked (map snd (map (fun participantId =>
                           triggerAssessment w participantId source)
                        participantIds))
  = participantIds.
Proof.
  induction participantIds as [|p rest IH]; [done|].
  simpl. cbn [invoked omap] in *. simpl. by f_equal.
Qed.

Lemma dispatched_triggers w source participantIds :
  map rec_participantId
      (map fst (map (fun participantId =>
                       triggerAssessment w participantId source)
                    participantIds))
  = participantIds.
Proof.
  induction participantIds as [|p rest IH]; [done|].
  simpl. rewrite IH. f_equal. by destruct (invoke w _).
Qed.

(** The engine is invoked for the extracted participants, once each, in
    order. *)
Lemma handler_invokes w event :
  invoked (snd (handler w event))
  = fst (extractParticipantIds w event (identifyEventSource event))
  /\ map rec_participantId (results (resp_body (fst (handler w event))))
     = fst (extractParticipantIds w event (identifyEventSource event)).
Proof.
  unfold handler.
  destruct (extractParticipantIds_spec w event (identifyEventSource event))
    as [_ Hcalls].
  destruct (extractParticipantIds w event (identifyEventSource event))
    as [ids calls]. simpl in Hcalls.
  destruct ids as [|p rest]; [done|].
  cbn [fst snd resp_body results].
  rewrite invoked_app, Hcalls, invoked_triggers, dispatched_triggers. done.
Qed.

(** ** The claims about the trigger *)

(** C7 fails on the code.  For the scheduled event of the repository's own
    test, with two active participants, the source is read off the event's
    [source] property ("aws.events") before its [detail-type] is looked at:
    the event is taken for an unknown one, the query is never made, and no
    assessment is triggered, where the test expects "Triggered 2
    assessments". *)
Theorem scheduled_event_triggers_nothing :
  identifyEventSource scheduled_event = "aws.events"
  /\ handler two_active scheduled_event
     = ({| statusCode := 200;
           resp_body := {| message := "No participants to assess";
                           body_source := None;
                           results := [] |} |},
        []).
Proof. split; reflexivity. Qed.

(** The same event without its [source] is dispatched as the test
    expects. *)
Lemma bare_scheduled_event_triggers_two :
  message (resp_body (fst (handler two_active bare_scheduled_event)))
  = "Triggered 2 assessments (0 failed)"
  /\ invoked (snd (handler two_active bare_scheduled_event))
     = ["test-user-1"; "test-user-2"].
Proof. split; vm_compute; reflexivity. Qed.

(** C8.  Within one dispatch cycle no participant is dispatched twice,
    whatever the event: the engine is invoked once per distinct participant.
    For a scheduled enumeration that yields [A; B; A], exactly two
    assessments are triggered, one for [A] and one for [B]. *)
Theorem work_items_are_dispatched_once :
  (forall w event, NoDup (invoked (snd (handler w event))))
  /\ (forall w event A B,
         A <> B ->
         identifyEventSource event = "scheduled-event" ->
         query w = QueryResponse [A; B; A] ->
         invoked (snd (handler w event)) = [A; B]
         /\ map rec_participantId (results (resp_body (fst (handler w event))))
            = [A; B]).
Proof.
  split.
  - intros w event. destruct (handler_invokes w event) as [-> _].
    apply extractParticipantIds_spec.
  - intros w event A B Hne Hsource Hquery.
    destruct (handler_invokes w event) as [-> ->].
    rewrite Hsource. unfold extractParticipantIds. simpl.
    unfold getActiveParticipants. rewrite Hquery. simpl.
    unfold new_Set. simpl.
    rewrite bool_decide_eq_false_2 by (rewrite list_elem_of_singleton; done).
    simpl. rewrite bool_decide_eq_true_2 by (apply elem_of_cons; by left).
    done.
Qed.

Lemma work_items_are_dispatched_once_witness :
  NoDup (invoked (snd (handler (mocked ["A"; "B"; "A"]) bare_scheduled_event)))
  /\ invoked (snd (handler (mocked ["A"; "B"; "A"]) bare_scheduled_event))
     = ["A"; "B"]
  /\ map rec_participantId
       (results (resp_body (fst (handler (mocked ["A"; "B"; "A"])
                                   bare_scheduled_event))))
     = ["A"; "B"].
Proof.
  split.
  - apply (proj1 work_items_are_dispatched_once).
  - apply (proj2 work_items_are_dispatched_once
             (mocked ["A"; "B"; "A"]) bare_scheduled_event "A" "B").
    + discriminate.
    + reflexivity.
    + reflexivity.
Defined.

End TriggerFacts.

(** ** Facts about strings *)

Module TextFacts.

Lemma prefix_empty s : String.prefix "" s = true.
Proof. by destruct s. Qed.

Lemma prefix_app pat s : String.prefix pat (pat +:+ s) = true.
Proof.
  induction pat as [|a pat IH]; simpl.
  - by destruct s.
  - by destruct (ascii_dec a a).
Qed.

Lemma prefix_split pat s :
  String.prefix pat s = true -> exists r, s = pat +:+ r.
Proof.
  revert s. induction pat as [|a pat IH]; intros s; [by exists s|].
  destruct s as [|c s]; [done|]. cbn [String.prefix].
  destruct (ascii_dec a c) as [->|]; [|done].
  intros [r ->]%IH. by exists r.
Qed.

Lemma includes_cons pat c s :
  includes pat (String c s) = false ->
  String.prefix pat (String c s) = false /\ includes pat s = false.
Proof.
  cbn [includes]. by destruct (String.prefix pat (String c s)).
Qed.

Lemma includes_prefix pat s :
  String.prefix pat s = true -> includes pat s = true.
Proof. intros Hp. destruct s; cbn [includes]; by rewrite Hp. Qed.

(** [includes] finds exactly the strings that can be cut around [pat]. *)
Lemma includes_split pat s :
  includes pat s = true <-> exists l r, s = l +:+ pat +:+ r.
Proof.
  split.
  - induction s as [|c s IH]; cbn [includes].
    + destruct (String.prefix pat "") eqn:Hp; [|done].
      intros _. apply prefix_split in Hp as [r ->]. by exists "", r.
    + destruct (String.prefix pat (String c s)) eqn:Hp.
      * intros _. apply prefix_split in Hp as [r ->]. by exists "", r.
      * intros (l & r & ->)%IH. by exists (String c l), r.
  - intros (l & r & ->). induction l as [|c l IH].
    + change ("" +:+ pat +:+ r) with (pat +:+ r).
      apply includes_prefix, prefix_app.
    + change (String c l +:+ pat +:+ r) with (String c (l +:+ pat +:+ r)).
      cbn [includes]. rewrite IH. by destruct (String.prefix _ _).
Qed.

Lemma append_cons x (a b : string) : String x a +:+ b = String x (a +:+ b).
Proof. reflexivity. Qed.

Lemma append_assoc (a b c : string) : (a +:+ b) +:+ c = a +:+ b +:+ c.
Proof.
  induction a as [|x a IH]; [done|]. by rewrite !append_cons, IH.
Qed.

(** What occurs in a part occurs in the whole. *)
Lemma includes_trans pat a b :
  includes pat a = true -> includes a b = true -> includes pat b = true.
Proof.
  rewrite !includes_split. intros (l & r & ->) (l' & r' & ->).
  exists (l' +:+ l), (r +:+ r'). by rewrite !append_assoc.
Qed.

Lemma remove_all_from_absent pat s :
  includes pat s = false -> remove_all_from pat O s = s.
Proof.
  induction s as [|c s IH]; [done|]. intros Habsent.
  destruct (includes_cons _ _ _ Habsent) as [Hhere Hlater].
  cbn [remove_all_from]. rewrite Hhere. by rewrite IH.
Qed.

Lemma remove_all_from_skip pat pre s :
  remove_all_from pat (String.length pre) (pre +:+ s)
  = remove_all_from pat O s.
Proof. induction pre as [|c pre IH]; [done|]. exact IH. Qed.

Lemma remove_all_prefixed pat s :
  pat <> "" ->
  includes pat s = false ->
  remove_all pat (pat +:+ s) = s.
Proof.
  intros Hpat Habsent. destruct pat as [|a pat]; [done|].
  unfold remove_all.
  change (String a pat +:+ s) with (String a (pat +:+ s)).
  cbn [remove_all_from].
  change (String a (pat +:+ s)) with (String a pat +:+ s).
  rewrite prefix_app. cbn [String.length Nat.pred].
  rewrite remove_all_from_skip. by apply remove_all_from_absent.
Qed.

Lemma drop_chars_app pre s : drop_chars (String.length pre) (pre +:+ s) = s.
Proof. induction pre as [|c pre IH]; [by destruct s|]. exact IH. Qed.

Lemma remove_first_prefixed pat s : remove_first pat (pat +:+ s) = s.
Proof.
  assert (remove_first pat (pat +:+ s)
          = drop_chars (String.length pat) (pat +:+ s)) as ->.
  { pose proof (prefix_app pat s) as Hp.
    destruct (pat +:+ s); cbn [remove_first]; by rewrite Hp. }
  apply drop_chars_app.
Qed.

Lemma prefix_char a c s :
  String.prefix (String a "") (String c s) = false -> a <> c.
Proof.
  cbn [String.prefix]. by destruct (ascii_dec a c), s.
Qed.

Lemma includes_char_cons sep c s :
  includes (String sep "") (String c s)
  = Ascii.eqb c sep || includes (String sep "") s.
Proof.
  cbn [includes String.prefix]. rewrite prefix_empty.
  destruct (ascii_dec sep c) as [->|Hne].
  - by rewrite Ascii.eqb_refl.
  - destruct (Ascii.eqb_spec c sep); [by subst|done].
Qed.

Lemma includes_char_app sep a b :
  includes (String sep "") (a +:+ b)
  = includes (String sep "") a || includes (String sep "") b.
Proof.
  induction a as [|c a IH]; [done|].
  change (String c a +:+ b) with (String c (a +:+ b)).
  rewrite !includes_char_cons, IH. by rewrite orb_assoc.
Qed.

(** [split_once] cuts at the first separator. *)
Lemma split_once_first sep head rest :
  includes (String sep "") head = false ->
  split_once sep (head +:+ String sep rest) = (head, Some rest).
Proof.
  induction head as [|c head IH].
  - intros _. simpl. by rewrite Ascii.eqb_refl.
  - rewrite includes_char_cons. intros [Hc Hhead]%orb_false_elim.
    simpl. rewrite Hc. by rewrite (IH Hhead).
Qed.

Lemma split_once_none sep s :
  includes (String sep "") s = false -> split_once sep s = (s, None).
Proof.
  induction s as [|c s IH]; [done|].
  rewrite includes_char_cons. intros [Hc Hs]%orb_false_elim.
  simpl. rewrite Hc. by rewrite (IH Hs).
Qed.

(** What follows a separator does not change what comes before the first
    one. *)
Lemma split_once_fst_app sep s rest :
  fst (split_once sep (s +:+ String sep rest)) = fst (split_once sep s).
Proof.
  induction s as [|c s IH].
  - simpl. by rewrite Ascii.eqb_refl.
  - simpl. destruct (Ascii.eqb c sep); [done|].
    destruct (split_once sep (s +:+ String sep rest)),
      (split_once sep s). simpl in *. by subst.
Qed.

End TextFacts.

(** ** More about the engine *)

Module EngineMore.

Import Engine Samples MoreSamples EngineFacts TextFacts.

(** *** Feedback *)

Lemma feedback_lists_spec rs ia sa :
  feedback_lists rs ia sa
  = (ia ++ map (fun r => {| fi_name := name r;
                            fi_details := get_or (details r) (PDict []) |})
               (List.filter (fun r => truthy (implemented r)) rs),
     sa ++ map (fun r => {| fs_name := name r; fs_points := maxPoints r |})
               (List.filter (fun r => negb (truthy (implemented r))) rs)).
Proof.
  revert ia sa. induction rs as [|r rs IH]; intros ia sa; simpl.
  - by rewrite !app_nil_r.
  - destruct (truthy (implemented r)); simpl; rewrite IH;
      by rewrite <- ?app_assoc.
Qed.

(** X1.  [generate_feedback] sorts every outcome into exactly one of its
    two lists, keeping the order: [implemented] names the outcomes whose
    [implemented] tests true, [suggestions] names the others with the
    points they could have earned, and the two lists together are as long
    as the outcome list. *)
Theorem feedback_sorts_every_outcome rs total passed :
  map fi_name (fb_implemented (generate_feedback rs total passed))
  = map name (List.filter (fun r => truthy (implemented r)) rs)
  /\ map fs_name (suggestions (generate_feedback rs total passed))
     = map name (List.filter (fun r => negb (truthy (implemented r))) rs)
  /\ map fs_points (suggestions (generate_feedback rs total passed))
     = map maxPoints (List.filter (fun r => negb (truthy (implemented r))) rs)
  /\ (length (fb_implemented (generate_feedback rs total passed))
      + length (suggestions (generate_feedback rs total passed)))%nat
     = length rs.
Proof.
  unfold generate_feedback. rewrite feedback_lists_spec. simpl.
  rewrite !map_map. simpl. repeat split.
  rewrite !length_map. clear.
  induction rs as [|r rs IH]; simpl; [done|].
  destruct (truthy (implemented r)); simpl; lia.
Qed.

(** *** Parameters *)

(** X2.  A request that lacks [participantId] or [challengeId], or has
    one of them empty, is refused with [ValueError] before any service is
    asked: the only call is the error metric, under the challenge id of
    the event or ["unknown"]. *)
Theorem missing_parameters_stop_the_run w event st :
  str_truthy (participantId event) = false
  \/ str_truthy (challengeId event) = false ->
  lambda_handler w event st
  = (inl (Exc (Exn ValueError
                 "Missing required parameters: participantId and challengeId")),
     log_call
       (CallPutMetricData
          (AssessmentErrors (get_or (challengeId event) "unknown")))
       st).
Proof.
  intros Hmissing. unfold lambda_handler, lambda_handler_try.
  assert (negb (str_truthy (participantId event))
          || negb (str_truthy (challengeId event)) = true) as ->.
  { destruct Hmissing as [-> | ->]; [done|]. by rewrite orb_true_r. }
  reflexivity.
Qed.

(** *** Criteria *)

Lemma run_criteria_unnamed pid stack (m : pymodule) creds criteria acc st :
  Exists (fun criterion => crit_checkFunction criterion = None) criteria ->
  exists t st',
    run_criteria pid stack m creds criteria acc st = (inl t, st')
    /\ ((exists e, t = Exc e /\ cls e = TypeError)
        \/ exists class_name, t = Exit class_name)
    /\ (raises_errors_only m -> exists e, t = Exc e /\ cls e = TypeError).
Proof.
  intros Hex. revert acc st.
  induction criteria as [|criterion rest IH]; intros acc st.
  - by apply Exists_nil in Hex.
  - simpl. unfold bind at 1.
    destruct (check_criterion pid stack m creds criterion st)
      as [[t|entry] st1] eqn:Hcheck.
    + exists t, st1. split; [done|].
      destruct (check_criterion_thrown _ _ _ _ _ _ _ _ Hcheck)
        as [[_ ->]|(fname & f & x & _ & Hf & -> & Hends)].
      * split; [left; eauto | eauto].
      * split; [right; eauto|]. intros Hsafe.
        destruct (Hsafe fname f pid stack creds (module_vars st) x Hf).
        cbv zeta in Hends. tauto.
    + apply Exists_cons in Hex as [Hhere|Hlater]; [|by apply IH].
      unfold check_criterion in Hcheck. rewrite Hhere in Hcheck.
      discriminate.
Qed.

(** X3.  A definition with a criterion that names no check function
    fails the whole run, whatever the other criteria earned, and nothing is
    written to the results table: [hasattr] is asked outside the [try]
    block and its [TypeError] leaves the loop.  The run fails with that
    [TypeError], unless a check function before it ended in an error
    outside [Exception], which fails the run first. *)
Theorem criterion_without_check_function_fails_the_run
    w event st pid cid cfg m creds st3 :
  reaches_evaluation w event st pid cid cfg m creds st3 ->
  Exists (fun criterion => crit_checkFunction criterion = None)
         (criteria_of cfg) ->
  exists t st',
    lambda_handler w event st = (inl t, st')
    /\ nothing_persisted st st'
    /\ ((exists e, t = Exc e /\ cls e = TypeError)
        \/ exists class_name, t = Exit class_name)
    /\ (raises_errors_only m -> exists e, t = Exc e /\ cls e = TypeError).
Proof.
  intros Hreach Hex.
  destruct (run_criteria_unnamed pid (stack_name_of cfg pid) m creds _ [] st3
              Hex) as (t & st4 & Hrs & Htype).
  rewrite (lambda_handler_evaluates _ _ _ _ _ _ _ _ _ Hreach).
  unfold run_assessment. rewrite Hrs.
  pose proof (same_store_quiet _ _ (run_criteria_same_store _ _ _ _ _ _ _ _ _
                                      Hrs)) as Hquiet.
  pose proof (reaches_evaluation_quiet _ _ _ _ _ _ _ _ _ Hreach) as Hstages.
  destruct t as [e|x]; eexists _, _; (split; [reflexivity|]);
    (split; [|exact Htype]).
  - eapply nothing_persisted_trans; [exact Hstages|].
    eapply nothing_persisted_trans;
      [exact Hquiet | by apply nothing_persisted_log].
  - eapply nothing_persisted_trans; [exact Hstages | exact Hquiet].
Qed.

(** X5.  Every outcome of an evaluation has one of two shapes: it
    carries [details] and no [error], or an [error] and no [details], and
    then [implemented] is false and no points are earned.  Its points are
    nothing or the criterion's full points, and they are earned only under
    an [implemented] that tests true. *)
Theorem outcomes_are_verdicts_or_errors pid cfg m creds st rs st' :
  run_assessment pid cfg m creds st = (inr rs, st') ->
  Forall (fun r =>
            (error r = None <-> is_Some (details r))
            /\ (is_Some (error r) ->
                implemented r = PBool false /\ points r = 0)
            /\ (points r = 0 \/ points r = maxPoints r)
            /\ (points r <> 0 -> truthy (implemented r) = true))
         rs.
Proof.
  intros Hrs. apply run_assessment_entries in Hrs.
  induction Hrs as [|criterion r criteria rs (s & s' & Hentry) _ IH];
    constructor; [|exact IH].
  clear IH. unfold check_criterion in Hentry.
  destruct (crit_checkFunction criterion) as [fname|]; [|discriminate].
  destruct (m !! fname) as [f|].
  - destruct (execute_check_function f pid _ creds s) as [[[e|x]|d] s1];
      try discriminate;
      injection Hentry as <- _; simpl;
      repeat split; eauto; try done;
      try (by intros [? [=]]);
      destruct (truthy _); eauto; done.
  - injection Hentry as <- _; simpl.
    repeat split; eauto; try done; by intros [? [=]].
Qed.

(** *** What a run leaves behind *)

Lemma load_challenge_config_returns w cid st cfg st1 :
  load_challenge_config w cid st = (inr cfg, st1) ->
  st1 = log_call (CallGetItem (registry_table_name w) cid) st.
Proof.
  unfold load_challenge_config, registry_table_name. run_m.
  destruct (get_item w _ cid) as [e|[challenge|]];
    repeat case_match; by intros [= <- <-].
Qed.

Lemma load_check_functions_returns w loc file st m st2 :
  load_check_functions_from_s3 w loc file st = (inr m, st2) ->
  exists bucket key,
    calls st2 = calls st ++ [CallGetObject bucket key]
    /\ results_table st2 = results_table st
    /\ sys_modules st2 = <[module_name (time_at_load w) := m]> (sys_modules st).
Proof.
  unfold load_check_functions_from_s3. run_m.
  destruct (get_object w _ _) as [e|[e|namespace [[e|x]|]]];
    repeat case_match; intros [= <- <-]. simpl. eauto.
Qed.

Lemma assume_assessment_role_returns w account st creds st3 :
  assume_assessment_role w account st = (inr creds, st3) ->
  exists role external_id,
    st3 = log_call (CallAssumeRole role external_id) st.
Proof.
  unfold assume_assessment_role. run_m.
  destruct (assume_role w _ _) as [e|key secret token];
    repeat case_match; intros [= <- <-]. eauto.
Qed.

(** X6.  A completed run makes five service calls, in this order: the
    registry read, the bundle fetch, the role assumption, one write to the
    results table, and the metrics.  The write stores the run's outcomes,
    score and verdict under the pair of participant and challenge,
    replacing what was stored under that pair and touching nothing else. *)
Theorem completed_run_writes_once
    w event st pid cid cfg m creds st3 result st' :
  reaches_evaluation w event st pid cid cfg m creds st3 ->
  lambda_handler w event st = (inr result, st') ->
  let item := item_of w event pid cid cfg (results result) in
  (exists bucket key role external_id,
      calls st'
      = calls st
        ++ [CallGetItem (registry_table_name w) cid;
            CallGetObject bucket key;
            CallAssumeRole role external_id;
            CallPutItem (results_table_name w) item;
            CallPutMetricData
              (AssessmentMetrics cid (score result) (passed result))])
  /\ results_table st' = <[(pid, cid) := item]> (results_table st)
  /\ item_details item = results result
  /\ item_score item = score result
  /\ item_passed item = passed result.
Proof.
  intros Hreach Hrun item.
  destruct (completed_run _ _ _ _ _ _ _ _ _ _ _ Hreach Hrun)
    as (rs & st4 & Hrs & Hresult).
  rewrite (lambda_handler_evaluates _ _ _ _ _ _ _ _ _ Hreach), Hrs in Hrun.
  cbv zeta in Hrun. subst result. simpl in item.
  destruct (put_item w _ _); [discriminate|].
  injection Hrun as <-.
  destruct (run_assessment_same_store _ _ _ _ _ _ _ Hrs)
    as (_ & Htable4 & Hcalls4).
  destruct Hreach as
    [pid cid cfg st1 loc file m st2 creds st3 Hnames Hcfg Hloc Hfile Hload
       Hrole].
  apply load_challenge_config_returns in Hcfg. subst st1.
  destruct (load_check_functions_returns _ _ _ _ _ _ Hload)
    as (bucket & key & Hcalls2 & Htable2 & _).
  destruct (assume_assessment_role_returns _ _ _ _ _ Hrole)
    as (role & ext & ->).
  simpl in Htable4, Hcalls4. simpl. rewrite Htable4, Hcalls4.
  repeat split; try done.
  - exists bucket, key, role, ext. rewrite Hcalls2. simpl.
    by rewrite <- !app_assoc.
  - by rewrite Htable2.
Qed.

(** X7.  A definition without criteria (the attribute absent, or an
    empty list) is evaluated to no outcome at all: the run completes with
    score 0 out of 0, and it passes only under a passing score of 0 or
    less; under the default passing score of 80 it does not pass. *)
Theorem definition_without_criteria_scores_nothing
    w event st pid cid cfg m creds st3 result st' :
  reaches_evaluation w event st pid cid cfg m creds st3 ->
  criteria_of cfg = [] ->
  lambda_handler w event st = (inr result, st') ->
  results result = []
  /\ score result = 0
  /\ maxScore result = 0
  /\ (passed result = true <-> get_or (passingScore cfg) 80 <= 0)
  /\ (passingScore cfg = None -> passed result = false).
Proof.
  intros Hreach Hnone Hrun.
  destruct (completed_run _ _ _ _ _ _ _ _ _ _ _ Hreach Hrun)
    as (rs & st4 & Hrs & ->).
  unfold run_assessment in Hrs. rewrite Hnone in Hrs.
  injection Hrs as <- _. simpl.
  unfold calculate_max_score. rewrite Hnone.
  repeat split; try done.
  - by intros ?%Z.leb_le.
  - by intros ?%Z.leb_le.
  - by intros ->.
Qed.

(** *** Where the bundle is fetched from *)

(** X8.  For a location ["s3://<bucket>/<prefix>"] whose bucket holds no
    ["/"], and in which ["s3://"] occurs at the front only, the bundle is
    fetched from that bucket under the key [<prefix><file>], in one
    [get_object] call, whatever the answer. *)
Theorem bundle_is_fetched_where_the_location_points
    w bucket prefix file st :
  includes "/" bucket = false ->
  includes "s3://" (bucket +:+ "/" +:+ prefix) = false ->
  calls (snd (load_check_functions_from_s3 w
                ("s3://" +:+ bucket +:+ "/" +:+ prefix) file st))
  = calls st ++ [CallGetObject bucket (prefix +:+ file)].
Proof.
  intros Hbucket Hscheme. unfold load_check_functions_from_s3.
  rewrite (remove_all_prefixed "s3://" _ ltac:(done) Hscheme).
  change (bucket +:+ "/" +:+ prefix) with (bucket +:+ String "/" prefix).
  rewrite (split_once_first "/" _ _ Hbucket). cbn [fst snd get_or].
  run_m.
  destruct (get_object w bucket (prefix +:+ file))
    as [e|[e|namespace [[e|x]|]]]; repeat case_match; done.
Qed.

(** X9.  A bundle whose execution raises makes the load fail, but it has
    been entered in [sys.modules] by then and stays there, under the name
    of the load.  What the execution threw reaches the caller through the
    two [except] clauses around the whole body: a [ClientError] as "Failed
    to load check functions from S3: ...", any other [Exception] as "Failed
    to load check functions: ...", and what does not derive from
    [Exception] as it is. *)
Theorem failed_bundle_stays_registered w loc file st namespace t :
  get_object w (bundle_bucket loc) (bundle_key loc file)
  = GetObjectResponse (BodySource namespace (Some t)) ->
  exists st',
    load_check_functions_from_s3 w loc file st
    = (inl match t with
           | Exc e =>
               Exc (Exn Exception
                      ((if is_client_error e
                        then "Failed to load check functions from S3: "
                        else "Failed to load check functions: ")
                       +:+ str e))
           | Exit class_name => Exit class_name
           end,
       st')
    /\ sys_modules st' !! module_name (time_at_load w) = Some namespace
    /\ nothing_persisted st st'.
Proof.
  intros Hobject.
  destruct (load_check_functions_from_s3 w loc file st) as [r st'] eqn:Hload.
  pose proof (load_check_functions_quiet _ _ _ _ _ _ Hload) as Hquiet.
  revert Hload Hobject.
  unfold load_check_functions_from_s3, bundle_bucket, bundle_key. run_m.
  intros Hload Hobject. rewrite Hobject in Hload. revert Hload.
  destruct t as [e|x]; [destruct (is_client_error e)|];
    intros [= <- <-];
    (eexists; split; [reflexivity|]); (split; [|done]);
    simpl; apply lookup_insert_eq.
Qed.

(** *** The sample runs *)

Lemma missing_parameters_stop_the_run_witness :
  lambda_handler healthy anonymous fresh
  = (inl (Exc (Exn ValueError
                 "Missing required parameters: participantId and challengeId")),
     log_call (CallPutMetricData (AssessmentErrors voting)) fresh).
Proof.
  apply (missing_parameters_stop_the_run healthy anonymous fresh).
  left. reflexivity.
Defined.

Lemma bundle_raises_errors_only : raises_errors_only bundle.
Proof.
  intros fname f pid stack creds vars x Hf. unfold bundle in Hf.
  apply lookup_insert_Some in Hf as [[_ <-]|[_ Hf]]; [by split|].
  apply lookup_singleton_Some in Hf as [_ <-]. by split.
Qed.

Lemma criterion_without_check_function_fails_the_run_witness :
  exists t st',
    lambda_handler
      (world (with_criteria (Some [pitr; unnamed])) (BodySource bundle None))
      request fresh
    = (inl t, st')
    /\ nothing_persisted fresh st'
    /\ exists e, t = Exc e /\ cls e = TypeError.
Proof.
  destruct (criterion_without_check_function_fails_the_run
              (world (with_criteria (Some [pitr; unnamed]))
                 (BodySource bundle None))
              request fresh alice voting
              (with_criteria (Some [pitr; unnamed]))
              bundle creds (authorized bundle)
              (sample_reaches_evaluation
                 (with_criteria (Some [pitr; unnamed])) bundle
                 eq_refl eq_refl eq_refl)
              (Exists_cons_tl pitr (Exists_cons_hd _ unnamed [] eq_refl)))
    as (t & st' & Hrun & Hquiet & _ & Htype).
  exists t, st'. split; [exact Hrun|]. split; [exact Hquiet|].
  apply Htype. exact bundle_raises_errors_only.
Defined.

Lemma outcomes_are_verdicts_or_errors_witness :
  Forall (fun r =>
            (error r = None <-> is_Some (details r))
            /\ (is_Some (error r) ->
                implemented r = PBool false /\ points r = 0)
            /\ (points r = 0 \/ points r = maxPoints r)
            /\ (points r <> 0 -> truthy (implemented r) = true))
         faulty_entries.
Proof.
  apply (outcomes_are_verdicts_or_errors alice definition faulty_bundle creds
           (authorized faulty_bundle) faulty_entries
           (snd (run_assessment alice definition faulty_bundle creds
                   (authorized faulty_bundle)))).
  vm_compute. reflexivity.
Defined.

Lemma completed_run_writes_once_witness :
  results_table (snd (lambda_handler healthy request fresh))
  = <[(alice, voting) :=
        item_of healthy request alice voting definition (results verdict)]>
      (results_table fresh).
Proof.
  apply (completed_run_writes_once healthy request fresh alice voting
           definition bundle creds (authorized bundle) verdict
           (snd (lambda_handler healthy request fresh))).
  - apply sample_reaches_evaluation; reflexivity.
  - vm_compute. reflexivity.
Defined.

Lemma definition_without_criteria_scores_nothing_witness :
  let result := result_of request alice voting (with_criteria None) [] in
  results result = []
  /\ score result = 0
  /\ maxScore result = 0
  /\ (passed result = true
      <-> get_or (passingScore (with_criteria None)) 80 <= 0)
  /\ (passingScore (with_criteria None) = None -> passed result = false).
Proof.
  apply (definition_without_criteria_scores_nothing
           (world (with_criteria None) (BodySource bundle None))
           request fresh alice voting (with_criteria None) bundle creds
           (authorized bundle)
           (result_of request alice voting (with_criteria None) [])
           (snd (lambda_handler
                   (world (with_criteria None) (BodySource bundle None))
                   request fresh))).
  - apply sample_reaches_evaluation; reflexivity.
  - reflexivity.
  - vm_compute. reflexivity.
Defined.

Lemma bundle_is_fetched_where_the_location_points_witness :
  calls (snd (load_check_functions_from_s3 healthy
                ("s3://" +:+ "ctf-challenges" +:+ "/" +:+ "voting-system/")
                "check-functions.py" fresh))
  = calls fresh
    ++ [CallGetObject "ctf-challenges"
          ("voting-system/" +:+ "check-functions.py")].
Proof.
  apply (bundle_is_fetched_where_the_location_points healthy
           "ctf-challenges" "voting-system/" "check-functions.py" fresh);
    reflexivity.
Defined.

Lemma failed_bundle_stays_registered_witness :
  (exists st',
      load_check_functions_from_s3 (world definition broken)
        "s3://ctf-challenges/voting-system/" "check-functions.py" fresh
      = (inl (Exc (Exn Exception
                     ("Failed to load check functions: "
                      +:+ "name 'boto' is not defined"))),
         st')
      /\ sys_modules st' !! module_name (time_at_load (world definition broken))
         = Some bundle
      /\ nothing_persisted fresh st')
  /\ (exists st',
         load_check_functions_from_s3 (world definition refused)
           "s3://ctf-challenges/voting-system/" "check-functions.py" fresh
         = (inl (Exc (Exn Exception
                        ("Failed to load check functions from S3: "
                         +:+ "AccessDenied"))),
            st')
         /\ sys_modules st'
            !! module_name (time_at_load (world definition refused))
            = Some bundle
         /\ nothing_persisted fresh st').
Proof.
  split.
  - apply (failed_bundle_stays_registered (world definition broken)
             "s3://ctf-challenges/voting-system/" "check-functions.py" fresh
             bundle (Exc (Exn OtherError "name 'boto' is not defined"))).
    reflexivity.
  - apply (failed_bundle_stays_registered (world definition refused)
             "s3://ctf-challenges/voting-system/" "check-functions.py" fresh
             bundle (Exc (Exn ClientError "AccessDenied"))).
    reflexivity.
Defined.

End EngineMore.

(** ** More about the trigger *)

Module TriggerMore.

Import Trigger TriggerSamples MoreSamples TriggerFacts TextFacts.

(** *** Dispatch records *)

Lemma status_counts (records : list dispatch_record) :
  (length (filter (fun r => has_status triggered r = true) records)
   + length (filter (fun r => has_status failed r = true) records))%nat
  = length records.
Proof.
  induction records as [|r records IH]; [done|].
  rewrite !filter_cons.
  assert (has_status triggered r = negb (has_status failed r)) as Hone
    by (by destruct r as [? ? []]).
  destruct (has_status failed r); rewrite Hone;
    repeat case_decide; try done; cbn [length]; lia.
Qed.

Lemma trigger_records w source ids :
  Forall (fun r =>
            rec_source r = source
            /\ match invoke w {| payload_participantId := rec_participantId r;
                                 payload_source := source |} with
               | InvokeRaises message =>
                   rec_status r = failed /\ error r = Some message
                   /\ requestId r = None
               | InvokeResponse RequestId =>
                   rec_status r = triggered /\ requestId r = RequestId
                   /\ error r = None
               end)
         (map fst (map (fun participantId =>
                          triggerAssessment w participantId source) ids)).
Proof.
  induction ids as [|p ids IH]; simpl; constructor; [|exact IH].
  unfold triggerAssessment. simpl.
  destruct (invoke w _) eqn:Hinvoke; simpl; by rewrite Hinvoke.
Qed.

(** X10.  Every participant extracted from the event gets one invocation
    and one record, in order, whether or not earlier invocations failed: a
    record is [failed], with the error's message, exactly when its own
    invocation was refused, and [triggered] otherwise.  The two counts of
    the summary add up to the number of participants. *)
Theorem every_participant_gets_its_record w event :
  let source := identifyEventSource event in
  let ids := fst (extractParticipantIds w event source) in
  let records := results (resp_body (fst (handler w event))) in
  map rec_participantId records = ids
  /\ invoked (snd (handler w event)) = ids
  /\ Forall (fun r =>
               rec_source r = source
               /\ match invoke w {| payload_participantId := rec_participantId r;
                                    payload_source := source |} with
                  | InvokeRaises message =>
                      rec_status r = failed /\ error r = Some message
                      /\ requestId r = None
                  | InvokeResponse RequestId =>
                      rec_status r = triggered /\ requestId r = RequestId
                      /\ error r = None
                  end)
            records
  /\ (length (filter (fun r => has_status triggered r = true) records)
      + length (filter (fun r => has_status failed r = true) records))%nat
     = length ids
  /\ statusCode (fst (handler w event)) = 200.
Proof.
  cbv zeta. destruct (handler_invokes w event) as [Hinvoked Hrecords].
  split; [done|]. split; [done|].
  rewrite status_counts, <- Hrecords, length_map.
  unfold handler.
  destruct (extractParticipantIds w event (identifyEventSource event))
    as [ids calls].
  destruct ids as [|p rest]; simpl; [by repeat split|].
  split; [|done].
  apply (trigger_records w (identifyEventSource event) (p :: rest)).
Qed.

(** *** Stack change events *)

Lemma stack_name_has_no_slash p :
  includes "/" p = false ->
  includes "/" (StackEngine.stack_name_for p) = false.
Proof.
  intros Hp. unfold StackEngine.stack_name_for.
  rewrite !includes_char_app, Hp. reflexivity.
Qed.

Lemma participant_of_stack_name p :
  participant_of_stack (StackEngine.stack_name_for p)
  = fst (split_once "-" p).
Proof.
  unfold participant_of_stack, StackEngine.stack_name_for, stack_prefix.
  rewrite remove_first_prefixed.
  change (p +:+ "-dev") with (p +:+ String "-" "dev").
  apply split_once_fst_app.
Qed.

(** X11.  An event taken as a resource change (its [detail-type] says
    so and it has no [source], or its [source] says so) for the stack the
    stack assessment reads, [ctf-unreliable-app-<participant>-dev],
    triggers one assessment, for the text of the participant id up to its
    first hyphen: for the participant itself when the id has no hyphen, for
    a shortened id otherwise.  The same event with the [source] EventBridge
    gives it, [aws.cloudformation], is not taken as a resource change and
    triggers nothing. *)
Theorem stack_change_names_the_participant_up_to_a_hyphen
    w event arn p uuid :
  detail_stackId event
  = Some (arn +:+ "/" +:+ StackEngine.stack_name_for p +:+ "/" +:+ uuid) ->
  includes "/" arn = false ->
  includes "/" p = false ->
  (identifyEventSource event = "resource-change" ->
   invoked (snd (handler w event)) = [fst (split_once "-" p)]
   /\ (includes "-" p = false -> invoked (snd (handler w event)) = [p]))
  /\ (source event = Some "aws.cloudformation" ->
      handler w event
      = ({| statusCode := 200;
            resp_body := {| message := "No participants to assess";
                            body_source := None;
                            results := [] |} |},
         [])).
Proof.
  intros Hid Harn Hp. split.
  - intros Hsource.
    assert (invoked (snd (handler w event)) = [fst (split_once "-" p)])
      as Hinvoked.
    { destruct (handler_invokes w event) as [-> _].
      rewrite Hsource.
      unfold extractParticipantIds. simpl. rewrite Hid.
      assert (truthy (Some (arn +:+ "/" +:+ StackEngine.stack_name_for p
                            +:+ "/" +:+ uuid)) = true) as ->.
      { simpl. by destruct arn. }
      cbn [get_or].
      assert (stack_name_of_id (arn +:+ "/" +:+ StackEngine.stack_name_for p
                                +:+ "/" +:+ uuid)
              = Some (StackEngine.stack_name_for p)) as ->.
      { unfold stack_name_of_id.
        change (arn +:+ "/" +:+ StackEngine.stack_name_for p +:+ "/" +:+ uuid)
          with (arn +:+ String "/"
                  (StackEngine.stack_name_for p +:+ String "/" uuid)).
        rewrite (split_once_first "/" _ _ Harn). cbn [snd].
        by rewrite (split_once_first "/" _ _ (stack_name_has_no_slash _ Hp)). }
      cbn [get_or].
      assert (truthy (Some (StackEngine.stack_name_for p)) = true) as ->
        by reflexivity.
      assert (String.prefix stack_prefix (StackEngine.stack_name_for p) = true)
        as -> by apply prefix_app.
      cbn [negb orb fst]. by rewrite participant_of_stack_name. }
    split; [done|]. intros Hhyphen.
    by rewrite Hinvoked, (split_once_none "-" _ Hhyphen).
  - intros Hsource. unfold handler, identifyEventSource.
    rewrite Hsource. reflexivity.
Qed.

(** *** Scheduled events *)

Lemma scheduled_ids w event :
  identifyEventSource event = "scheduled-event" ->
  invoked (snd (handler w event)) = fst (getActiveParticipants w).
Proof.
  intros Hsource. destruct (handler_invokes w event) as [-> _].
  rewrite Hsource. reflexivity.
Qed.

(** X12.  For an event taken as scheduled, when the query on the status
    index answers, the participants the engine is invoked for are exactly
    those of the items returned. *)
Theorem scheduled_dispatch_covers_the_query w event Items :
  identifyEventSource event = "scheduled-event" ->
  query w = QueryResponse Items ->
  forall x, x ∈ invoked (snd (handler w event)) <-> x ∈ Items.
Proof.
  intros Hsource Hquery x. rewrite (scheduled_ids _ _ Hsource).
  unfold getActiveParticipants. rewrite Hquery. simpl.
  apply new_Set_elem.
Qed.

(** X13.  For an event taken as scheduled, when the query fails the
    participants are read off the stack list instead: the engine is invoked
    for the participant of every listed stack whose name starts with
    [ctf-unreliable-app-], and for no one else; when the stack listing
    fails too, no one is assessed. *)
Theorem query_failure_falls_back_to_the_stacks w event message :
  identifyEventSource event = "scheduled-event" ->
  query w = QueryRaises message ->
  match listStacks w with
  | ListStacksResponse StackSummaries =>
      forall x,
        x ∈ invoked (snd (handler w event))
        <-> exists StackName,
              StackName ∈ StackSummaries
              /\ String.prefix stack_prefix StackName = true
              /\ participant_of_stack StackName = x
  | ListStacksRaises _ =>
      handler w event
      = ({| statusCode := 200;
            resp_body := {| Trigger.message := "No participants to assess";
                            body_source := None;
                            results := [] |} |},
         [CallQuery; CallListStacks])
  end.
Proof.
  intros Hsource Hquery.
  destruct (listStacks w) as [m|StackSummaries] eqn:Hstacks.
  - unfold handler. rewrite Hsource.
    change (extractParticipantIds w event "scheduled-event")
      with (getActiveParticipants w).
    unfold getActiveParticipants, getParticipantsFromStacks.
    by rewrite Hquery, Hstacks.
  - intros x. rewrite (scheduled_ids _ _ Hsource).
    unfold getActiveParticipants, getParticipantsFromStacks.
    rewrite Hquery, Hstacks. simpl.
    rewrite new_Set_elem, list_elem_of_In, in_map_iff.
    split.
    + intros (n & <- & Hn%list_elem_of_In%list_elem_of_filter).
      exists n. tauto.
    + intros (n & Hn & Hprefix & <-). exists n. split; [done|].
      apply list_elem_of_In, list_elem_of_filter. tauto.
Qed.

(** *** Unrecognised events *)

(** X14.  An event whose source is none of the three the trigger knows
    is answered with "No participants to assess" and touches no service:
    no query, no stack listing, no invocation. *)
Theorem unrecognised_event_touches_nothing w event :
  identifyEventSource event <> "scheduled-event" ->
  identifyEventSource event <> "resource-change" ->
  identifyEventSource event <> "manual-api" ->
  handler w event
  = ({| statusCode := 200;
        resp_body := {| message := "No participants to assess";
                        body_source := None;
                        results := [] |} |},
     []).
Proof.
  intros H1%String.eqb_neq H2%String.eqb_neq H3%String.eqb_neq.
  unfold handler, extractParticipantIds. by rewrite H1, H2, H3.
Qed.

(** *** The sample events *)

Lemma stack_change_names_the_participant_up_to_a_hyphen_witness :
  invoked (snd (handler two_active stack_changed)) = ["alice"]
  /\ handler two_active stack_changed_delivered
     = ({| statusCode := 200;
           resp_body := {| message := "No participants to assess";
                           body_source := None;
                           results := [] |} |},
        []).
Proof.
  split.
  - apply (stack_change_names_the_participant_up_to_a_hyphen two_active
             stack_changed
             "arn:aws:cloudformation:us-east-1:123456789012:stack"
             "alice" "51af3dc0");
      reflexivity.
  - apply (stack_change_names_the_participant_up_to_a_hyphen two_active
             stack_changed_delivered
             "arn:aws:cloudformation:us-east-1:123456789012:stack"
             "alice" "51af3dc0");
      reflexivity.
Defined.

Lemma scheduled_dispatch_covers_the_query_witness :
  "B" ∈ invoked (snd (handler (mocked ["A"; "B"; "A"]) bare_scheduled_event))
  <-> "B" ∈ ["A"; "B"; "A"].
Proof.
  apply (scheduled_dispatch_covers_the_query (mocked ["A"; "B"; "A"])
           bare_scheduled_event ["A"; "B"; "A"]);
    reflexivity.
Defined.

Lemma query_failure_falls_back_to_the_stacks_witness :
  "bob" ∈ invoked (snd (handler query_down bare_scheduled_event))
  <-> exists StackName,
        StackName ∈ ["ctf-unreliable-app-alice-dev"; "billing-prod";
                     "ctf-unreliable-app-bob-dev"]
        /\ String.prefix stack_prefix StackName = true
        /\ participant_of_stack StackName = "bob".
Proof.
  apply (query_failure_falls_back_to_the_stacks query_down
           bare_scheduled_event "ResourceNotFoundException" eq_refl eq_refl
           "bob").
Defined.

Lemma unrecognised_event_touches_nothing_witness :
  handler two_active blank
  = ({| statusCode := 200;
        resp_body := {| message := "No participants to assess";
                        body_source := None;
                        results := [] |} |},
     []).
Proof.
  apply (unrecognised_event_touches_nothing two_active blank);
    discriminate.
Defined.

End TriggerMore.

(** ** Facts about the stack assessment *)

Module StackEngineFacts.

Import StackEngine.

Lemma check_scores template :
  (score (checkMultiRegionSetup template)
   = if implemented (checkMultiRegionSetup template) then 100 else 0)
  /\ (score (checkBackupConfigurations template)
      = if implemented (checkBackupConfigurations template) then 100 else 0).
Proof. done. Qed.

(** The pairs a handler call can end in. *)
Lemma handler_cases w event r calls :
  handler w event = (r, calls) ->
  (calls = [] /\ r = inl "Missing participantId")
  \/ exists pid,
       participantId event = Some pid /\ pid <> ""
       /\ exists stackAnalysis,
            analyzeStack w (stack_name_for pid)
            = (stackAnalysis, [CallGetTemplate (stack_name_for pid)])
            /\ match calculateScore stackAnalysis with
               | inl message =>
                   r = inl message
                   /\ calls = [CallGetTemplate (stack_name_for pid)]
               | inr n =>
                   let stored :=
                     [CallGetTemplate (stack_name_for pid);
                      CallUpdate (SYSTEM_METRICS_TABLE w) "reliability-score"
                        pid n] in
                   match update w pid n with
                   | WriteRaises message => r = inl message /\ calls = stored
                   | WriteOk =>
                       if 80 <=? n then
                         calls
                         = stored ++ [CallPut (FLAGS_TABLE w) (flag_for pid)]
                         /\ match put w (flag_for pid) with
                            | WriteRaises message => r = inl message
                            | WriteOk =>
                                r = inr {| res_participantId := pid;
                                           res_score := n;
                                           passed := true |}
                            end
                       else
                         calls = stored
                         /\ r = inr {| res_participantId := pid;
                                       res_score := n;
                                       passed := false |}
                   end
               end.
Proof.
  unfold handler.
  destruct (participantId event) as [pid|]; [|intros [= <- <-]; by left].
  destruct (String.eqb_spec pid "") as [->|Hpid].
  { intros [= <- <-]. by left. }
  intros Hrun. right. exists pid. split; [done|]. split; [done|].
  unfold analyzeStack in *.
  eexists. split; [reflexivity|].
  destruct (calculateScore _) as [message|n]; [by injection Hrun as <- <-|].
  cbv zeta in *. destruct (update w pid n); [by injection Hrun as <- <-|].
  destruct (80 <=? n); [|by injection Hrun as <- <-].
  destruct (put w _); by injection Hrun as <- <-.
Qed.

Lemma template_score template :
  round_half (score (checkMultiRegionSetup template)
              + score (checkBackupConfigurations template))
  = match implemented (checkMultiRegionSetup template),
          implemented (checkBackupConfigurations template) with
    | true, true => 100
    | false, false => 0
    | _, _ => 50
    end.
Proof.
  destruct (check_scores template) as [-> ->].
  by destruct (implemented (checkMultiRegionSetup template)),
    (implemented (checkBackupConfigurations template)).
Qed.

Lemma calculateScore_values stackAnalysis w name n :
  analyzeStack w name = (stackAnalysis, [CallGetTemplate name]) ->
  calculateScore stackAnalysis = inr n ->
  (n = 0 \/ n = 50 \/ n = 100)
  /\ (80 <= n <->
      exists template,
        getTemplate w name = TemplateBody template
        /\ implemented (checkMultiRegionSetup template) = true
        /\ implemented (checkBackupConfigurations template) = true).
Proof.
  unfold analyzeStack. intros [= <-].
  destruct (getTemplate w name) as [m|m|template]; cbn [calculateScore].
  - destruct (negb _); intros [= <-]. split; [auto|].
    split; [lia | by intros (? & [=] & _)].
  - destruct (negb _); intros [= <-]. split; [auto|].
    split; [lia | by intros (? & [=] & _)].
  - cbv zeta. rewrite template_score.
    destruct (implemented (checkMultiRegionSetup template)) eqn:Hregion,
      (implemented (checkBackupConfigurations template)) eqn:Hbackup;
      intros [= <-];
      (split; [first [by left | by right; left | by right; right]|]);
      (split; [intros ?|intros (t & [= <-] & ? & ?)]);
      try lia; try congruence.
    eauto.
Qed.

(** X15.  A stack assessment that completes reports a score of 0, 50 or
    100, which it has stored under the participant before answering; it
    reports [passed] exactly for the score 100, that is, exactly when the
    template was read and both the region check and the backup check found
    what they look for. *)
Theorem stack_score_is_0_50_or_100 w event result calls :
  handler w event = (inr result, calls) ->
  (res_score result = 0 \/ res_score result = 50 \/ res_score result = 100)
  /\ (passed result = true <-> res_score result = 100)
  /\ (passed result = true <->
      exists template,
        getTemplate w (stack_name_for (res_participantId result))
        = TemplateBody template
        /\ implemented (checkMultiRegionSetup template) = true
        /\ implemented (checkBackupConfigurations template) = true)
  /\ participantId event = Some (res_participantId result)
  /\ CallUpdate (SYSTEM_METRICS_TABLE w) "reliability-score"
       (res_participantId result) (res_score result) ∈ calls.
Proof.
  intros Hrun.
  destruct (handler_cases _ _ _ _ Hrun) as [[_ [=]]|(pid & Hevent & _ & Hrest)].
  destruct Hrest as (stackAnalysis & Hanalysis & Hcases).
  destruct (calculateScore stackAnalysis) as [m|n] eqn:Hscore;
    [by destruct Hcases|].
  destruct (calculateScore_values _ _ _ _ Hanalysis Hscore) as [Hvalues Hpass].
  cbv zeta in Hcases. destruct (update w pid n); [by destruct Hcases|].
  destruct (80 <=? n) eqn:Hn.
  - destruct Hcases as [-> Hput]. destruct (put w _); [done|].
    injection Hput as ->. simpl. apply Z.leb_le in Hn.
    repeat split; try done; try lia.
    + intros _. by apply Hpass.
    + apply list_elem_of_In; simpl; auto.
  - destruct Hcases as [-> Hres]. injection Hres as ->.
    simpl. apply Z.leb_gt in Hn.
    repeat split; try done; try lia.
    + intros Hex%Hpass. lia.
    + apply list_elem_of_In; simpl; auto.
Qed.

(** X16.  The flag is put for no one but the participant of the event,
    and never before the template was read, both checks found what they
    look for, and the score of 100 was stored; when all that holds, the
    flag is put, once. *)
Theorem flag_is_put_only_for_a_full_score w event pid :
  participantId event = Some pid ->
  pid <> "" ->
  (flags_put (snd (handler w event)) = [flag_for pid]
   \/ flags_put (snd (handler w event)) = [])
  /\ (flags_put (snd (handler w event)) = [flag_for pid] <->
      (exists template,
          getTemplate w (stack_name_for pid) = TemplateBody template
          /\ implemented (checkMultiRegionSetup template) = true
          /\ implemented (checkBackupConfigurations template) = true)
      /\ update w pid 100 = WriteOk).
Proof.
  intros Hevent Hpid.
  destruct (handler w event) as [r calls] eqn:Hrun.
  destruct (handler_cases _ _ _ _ Hrun)
    as [[-> ->]|(pid' & Hevent' & _ & Hrest)].
  { exfalso. revert Hrun. unfold handler, analyzeStack. rewrite Hevent.
    apply String.eqb_neq in Hpid. rewrite Hpid.
    repeat case_match; simpl; intros [=]. }
  assert (pid' = pid) as -> by congruence.
  destruct Hrest as (stackAnalysis & Hanalysis & Hcases). cbn [snd].
  destruct (calculateScore stackAnalysis) as [m|n] eqn:Hscore.
  - destruct Hcases as [_ ->]. split; [by right|].
    split; [done|]. intros [(t & Ht & Hm & Hb) _].
    unfold analyzeStack in Hanalysis. rewrite Ht in Hanalysis.
    injection Hanalysis as <-. done.
  - destruct (calculateScore_values _ _ _ _ Hanalysis Hscore)
      as [Hvalues Hpass].
    cbv zeta in Hcases.
    destruct (update w pid n) eqn:Hupdate.
    + destruct Hcases as [_ ->]. split; [by right|].
      split; [done|]. intros [Ht%Hpass Hstore].
      assert (n = 100) as -> by lia. congruence.
    + destruct (80 <=? n) eqn:Hn.
      * destruct Hcases as [-> _]. apply Z.leb_le in Hn.
        split; [by left|]. split; [intros _|done].
        assert (n = 100) as -> by lia.
        split; [by apply Hpass | done].
      * destruct Hcases as [-> _]. apply Z.leb_gt in Hn.
        split; [by right|]. split; [done|].
        intros [Ht%Hpass _]. lia.
Qed.

(** *** A sample run *)

Lemma stack_score_is_0_50_or_100_witness :
  CallUpdate (Some "ctf-system-metrics") "reliability-score" "alice" 100
  ∈ snd (handler (MoreSamples.stack_world MoreSamples.reliable)
           MoreSamples.for_alice).
Proof.
  apply (stack_score_is_0_50_or_100
           (MoreSamples.stack_world MoreSamples.reliable)
           MoreSamples.for_alice
           {| res_participantId := "alice"; res_score := 100; passed := true |}
           (snd (handler (MoreSamples.stack_world MoreSamples.reliable)
                   MoreSamples.for_alice))).
  reflexivity.
Defined.

Lemma flag_is_put_only_for_a_full_score_witness :
  flags_put (snd (handler (MoreSamples.stack_world MoreSamples.reliable)
                    MoreSamples.for_alice))
  = [flag_for "alice"].
Proof.
  apply (proj2 (proj2 (flag_is_put_only_for_a_full_score
                         (MoreSamples.stack_world MoreSamples.reliable)
                         MoreSamples.for_alice "alice" eq_refl
                         ltac:(discriminate)))).
  split; [|reflexivity].
  exists MoreSamples.reliable. repeat split.
Defined.

End StackEngineFacts.

(** ** Facts about the code analyzer *)

Module CodeAnalyzerFacts.

Import CodeAnalyzer TextFacts.

(** *** Bounds *)

Ltac by_cases c :=
  cbv zeta; cbn [score implemented];
  repeat match goal with
         | |- context [includes ?p c] => generalize (includes p c); intros []
         end;
  cbn [andb orb worth]; repeat split; try done; try lia.

Lemma error_handling_score c :
  0 <= score (checkErrorHandling c) <= 100
  /\ (implemented (checkErrorHandling c) = true
      -> 40 <= score (checkErrorHandling c))
  /\ (implemented (checkErrorHandling c) = false
      -> score (checkErrorHandling c) <= 60).
Proof. unfold checkErrorHandling. by_cases c. Qed.

Lemma retry_logic_score c :
  0 <= score (checkRetryLogic c) <= 100
  /\ (implemented (checkRetryLogic c) = true
      <-> 60 <= score (checkRetryLogic c)).
Proof. unfold checkRetryLogic. by_cases c. Qed.

Lemma circuit_breaker_score c :
  0 <= score (checkCircuitBreaker c) <= 100
  /\ (implemented (checkCircuitBreaker c) = true
      <-> score (checkCircuitBreaker c) = 100).
Proof. unfold checkCircuitBreaker. by_cases c. Qed.

Lemma idempotency_score c :
  0 <= score (checkIdempotency c) <= 100
  /\ (implemented (checkIdempotency c) = true
      <-> 0 < score (checkIdempotency c)).
Proof. unfold checkIdempotency. by_cases c. Qed.

Lemma async_processing_score c :
  0 <= score (checkAsyncProcessing c) <= 100
  /\ (implemented (checkAsyncProcessing c) = true
      <-> 0 < score (checkAsyncProcessing c)).
Proof. unfold checkAsyncProcessing. by_cases c. Qed.

(** X17.  Each of the five pattern checks gives a score between 0 and
    100.  Retry logic counts as implemented exactly from 60 points on, a
    circuit breaker exactly at 100, idempotency and asynchronous processing
    exactly when the score is not 0; error handling counts as implemented
    only from 40 points on, but up to 60 points can be had without. *)
Theorem pattern_scores_and_verdicts codeString :
  Forall (fun check => 0 <= score (check codeString) <= 100) checks
  /\ (implemented (checkRetryLogic codeString) = true
      <-> 60 <= score (checkRetryLogic codeString))
  /\ (implemented (checkCircuitBreaker codeString) = true
      <-> score (checkCircuitBreaker codeString) = 100)
  /\ (implemented (checkIdempotency codeString) = true
      <-> 0 < score (checkIdempotency codeString))
  /\ (implemented (checkAsyncProcessing codeString) = true
      <-> 0 < score (checkAsyncProcessing codeString))
  /\ (implemented (checkErrorHandling codeString) = true
      -> 40 <= score (checkErrorHandling codeString))
  /\ (implemented (checkErrorHandling codeString) = false
      -> score (checkErrorHandling codeString) <= 60).
Proof.
  unfold checks.
  destruct (error_handling_score codeString) as (? & ? & ?).
  destruct (retry_logic_score codeString) as (? & ?).
  destruct (circuit_breaker_score codeString) as (? & ?).
  destruct (idempotency_score codeString) as (? & ?).
  destruct (async_processing_score codeString) as (? & ?).
  split.
  - repeat (apply Forall_cons; split; [done|]). constructor.
  - tauto.
Qed.

(** *** Monotonicity *)

Lemma leb_andb a a' b b' : leb a a' -> leb b b' -> leb (a && b) (a' && b').
Proof.
  unfold leb. intros Ha Hb [-> ->]%andb_true_iff. by rewrite Ha, Hb.
Qed.

Lemma leb_orb a a' b b' : leb a a' -> leb b b' -> leb (a || b) (a' || b').
Proof.
  unfold leb. intros Ha Hb [->| ->]%orb_true_iff.
  - by rewrite Ha.
  - rewrite Hb by done. apply orb_true_r.
Qed.

Lemma leb_worth b b' n : 0 <= n -> leb b b' -> worth b n <= worth b' n.
Proof.
  unfold leb, worth. intros Hn Hb.
  destruct b; [rewrite Hb by done; lia | destruct b'; lia].
Qed.

Lemma leb_if b b' :
  leb b b' -> (if b then 100 else 0) <= (if b' then 100 else 0).
Proof.
  unfold leb. intros Hb.
  destruct b; [rewrite Hb by done; lia | destruct b'; lia].
Qed.

Lemma leb_includes pat a b :
  includes a b = true -> leb (includes pat a) (includes pat b).
Proof. intros Hin Hpat. by eapply includes_trans. Qed.

(** X18.  Code that contains other code scores at least as much on every
    pattern check, and has implemented every pattern the contained code
    has: no check is lost by adding text. *)
Theorem more_code_never_scores_less a b :
  includes a b = true ->
  Forall (fun check =>
            score (check a) <= score (check b)
            /\ (implemented (check a) = true
                -> implemented (check b) = true))
         checks.
Proof.
  intros Hin. pose proof (fun pat => leb_includes pat a b Hin) as Hpat.
  unfold checks, checkErrorHandling, checkRetryLogic, checkCircuitBreaker,
    checkIdempotency, checkAsyncProcessing.
  cbv zeta. cbn [score implemented].
  repeat constructor;
    repeat first
      [ apply Z.add_le_mono
      | apply leb_worth; [lia|]
      | apply leb_if
      | apply leb_orb
      | apply leb_andb
      | apply Hpat ].
Qed.

Lemma more_code_never_scores_less_witness :
  Forall (fun check =>
            score (check MoreSamples.guarded)
            <= score (check MoreSamples.guarded_and_retried)
            /\ (implemented (check MoreSamples.guarded) = true
                -> implemented (check MoreSamples.guarded_and_retried) = true))
         checks.
Proof.
  apply (more_code_never_scores_less MoreSamples.guarded
           MoreSamples.guarded_and_retried).
  reflexivity.
Defined.

End CodeAnalyzerFacts.

(** ** Facts about the sample check *)

Module SampleChecksFacts.

Import Engine SampleChecks.

Lemma check_tables_count db session tables n acc :
  fst (check_tables db session tables n acc)
  = n + Z.of_nat (length (List.filter (protected db session) tables)).
Proof.
  revert n acc. induction tables as [|t tables IH]; intros n acc; simpl.
  - lia.
  - unfold protected at 1.
    destruct (describe_continuous_backups db session t) as [e|[s|]];
      rewrite IH; simpl; try lia.
    destruct (String.eqb s "ENABLED"); simpl; lia.
Qed.

Lemma filter_all {A} (f : A -> bool) (l : list A) :
  (length (List.filter f l) <= length l)%nat
  /\ (length (List.filter f l) = length l <-> forallb f l = true).
Proof.
  induction l as [|x l [IHle IHeq]]; simpl; [done|].
  destruct (f x); simpl.
  - split; [lia|]. rewrite <- IHeq. lia.
  - split; [lia|]. split; [lia|done].
Qed.

Lemma verdict_all_protected db session tables :
  (0 <? fst (check_tables db session tables 0 []))
  && (fst (check_tables db session tables 0 [])
      =? Z.of_nat (length tables))
  = match tables with
    | [] => false
    | _ => forallb (protected db session) tables
    end.
Proof.
  rewrite check_tables_count.
  destruct tables as [|t tables]; [done|].
  destruct (filter_all (protected db session) (t :: tables)) as [Hle Heq].
  destruct (forallb (protected db session) (t :: tables)) eqn:Hall.
  - destruct Heq as [_ Heq]. rewrite (Heq eq_refl). cbn [length].
    apply andb_true_iff. split; [apply Z.ltb_lt | apply Z.eqb_eq]; lia.
  - apply andb_false_iff. right. apply Z.eqb_neq. intros Hlen.
    destruct Heq as [Heq _]. discriminate Heq. lia.
Qed.

Lemma backups_tables_dict db participant_id stack_name session TableNames :
  list_tables db session = ListTablesResponse TableNames ->
  exists details,
    check_dynamodb_backups db participant_id stack_name session
    = inr (PDict
             [("implemented",
               PBool (all_protected db session participant_id stack_name));
              ("details", details)]).
Proof.
  intros Htables.
  unfold check_dynamodb_backups, all_protected, participant_tables.
  rewrite Htables.
  set (tables := List.filter _ (get_or TableNames [])).
  pose proof (verdict_all_protected db session tables) as Hverdict.
  destruct (check_tables db session tables 0 []) as [n details].
  simpl in Hverdict. rewrite Hverdict. eauto.
Qed.

(** X19.  When the table list can be read, [check_dynamodb_backups]
    reports [implemented] exactly when it finds at least one table named
    after the participant or the stack and every such table has
    point-in-time recovery [ENABLED]; a table whose backup description
    cannot be read counts as unprotected.  It reports how many tables it
    looked at and how many it found protected. *)
Theorem backups_pass_when_every_table_is_protected
    db participant_id stack_name session TableNames :
  list_tables db session = ListTablesResponse TableNames ->
  exists tableDetails,
    check_dynamodb_backups db participant_id stack_name session
    = inr (PDict
             [("implemented",
               PBool (all_protected db session participant_id stack_name));
              ("details",
               PDict
                 [("tablesChecked",
                   PInt (Z.of_nat
                           (length (participant_tables db session
                                      participant_id stack_name))));
                  ("tablesWithPITR",
                   PInt (Z.of_nat
                           (length
                              (List.filter (protected db session)
                                 (participant_tables db session
                                    participant_id stack_name)))));
                  ("tableDetails", PList tableDetails)])]).
Proof.
  intros Htables.
  unfold check_dynamodb_backups, all_protected, participant_tables.
  rewrite Htables.
  set (tables := List.filter _ (get_or TableNames [])).
  pose proof (verdict_all_protected db session tables) as Hverdict.
  pose proof (check_tables_count db session tables 0 []) as Hcount.
  destruct (check_tables db session tables 0 []) as [n details].
  simpl in Hverdict, Hcount. subst n.
  exists details. rewrite Hverdict. reflexivity.
Qed.

(** X20.  Run by the engine and done before the alarm, the sample check
    always meets the engine's contract: the criterion's outcome carries a
    boolean [implemented] and no error, and earns the criterion's points
    exactly when every table of the participant is protected; when the
    table list cannot be read, the outcome is the failure carrying that
    error's text. *)
Theorem sample_check_meets_the_contract
    db elapsed spot pid stack (m : pymodule) creds criterion fname st :
  crit_checkFunction criterion = Some fname ->
  m !! fname = Some (as_routine db elapsed spot) ->
  elapsed < 30000 ->
  exists outcome,
    fst (check_criterion pid stack m creds criterion st) = inr outcome
    /\ match list_tables db (Some creds) with
       | ListTablesRaises e => outcome = failed_entry criterion (str e)
       | ListTablesResponse _ =>
           implemented outcome
           = PBool (all_protected db (Some creds) pid stack)
           /\ error outcome = None
           /\ points outcome
              = (if all_protected db (Some creds) pid stack
                 then criterion_points criterion else 0)
       end.
Proof.
  intros Hname Hf Hquick.
  unfold check_criterion, execute_check_function. rewrite Hname, Hf.
  cbv zeta. unfold as_routine.
  cbn [elapsed_ms undisturbed interrupted completes leaves].
  change (alarm_seconds * 1000) with 30000.
  apply Z.leb_gt in Hquick. rewrite Hquick.
  destruct (list_tables db (Some creds)) as [e|TableNames] eqn:Htables.
  - unfold check_dynamodb_backups. rewrite Htables. eauto.
  - destruct (backups_tables_dict db pid stack (Some creds) TableNames Htables)
      as (details & ->).
    eexists. split; [reflexivity|]. simpl.
    by destruct (all_protected _ _ _ _).
Qed.

(** *** A sample run *)

Lemma backups_pass_when_every_table_is_protected_witness :
  exists tableDetails,
    check_dynamodb_backups MoreSamples.half_protected "alice"
      "reliability-challenge-alice" None
    = inr (PDict
             [("implemented",
               PBool (all_protected MoreSamples.half_protected None "alice"
                        "reliability-challenge-alice"));
              ("details",
               PDict
                 [("tablesChecked",
                   PInt (Z.of_nat
                           (length (participant_tables
                                      MoreSamples.half_protected None "alice"
                                      "reliability-challenge-alice"))));
                  ("tablesWithPITR",
                   PInt (Z.of_nat
                           (length
                              (List.filter
                                 (protected MoreSamples.half_protected None)
                                 (participant_tables
                                    MoreSamples.half_protected None "alice"
                                    "reliability-challenge-alice")))));
                  ("tableDetails", PList tableDetails)])]).
Proof.
  apply (backups_pass_when_every_table_is_protected
           MoreSamples.half_protected "alice" "reliability-challenge-alice"
           None (Some ["votes-alice"; "votes-bob"; "audit-alice"])).
  reflexivity.
Defined.

Lemma sample_check_meets_the_contract_witness :
  exists outcome,
    fst (check_criterion "alice" "reliability-challenge-alice"
           MoreSamples.backup_bundle Samples.creds Samples.pitr
           (Samples.authorized MoreSamples.backup_bundle))
    = inr outcome
    /\ implemented outcome
       = PBool (all_protected MoreSamples.half_protected (Some Samples.creds)
                  "alice" "reliability-challenge-alice")
    /\ error outcome = None
    /\ points outcome
       = (if all_protected MoreSamples.half_protected (Some Samples.creds)
               "alice" "reliability-challenge-alice"
          then criterion_points Samples.pitr else 0).
Proof.
  apply (sample_check_meets_the_contract MoreSamples.half_protected 900
           InListTables "alice" "reliability-challenge-alice"
           MoreSamples.backup_bundle Samples.creds Samples.pitr "checkBackup"
           (Samples.authorized MoreSamples.backup_bundle));
    reflexivity.
Defined.

End SampleChecksFacts.
